(** * torchchat: command router and argument post-processing

    A shallow embedding of [cli.py] ([check_args], [arg_init]) and of the
    [__main__] block of [torchchat.py] (choice of the subcommand by the
    parser, post-processing, logging set-up, dispatch on the subcommand, and
    the [browser] child-process launcher).

    Python objects are embedded as follows.
    - The [argparse.Namespace] is a finite map from attribute names to Python
      values; [hasattr] is a lookup, attribute assignment is an insertion and
      reading a missing attribute raises [AttributeError].
    - Calls into collaborators ([torch.manual_seed], [is_model_downloaded],
      [download_and_convert], the subcommand handlers, [subprocess.run], ...)
      are recorded, in program order, in a trace of events; what they answer
      is read from a [World].
    - Exceptions are an explicit result; the only loop of the program (the
      [--port] scan) runs on fuel, and running out of fuel is a result of its
      own, so that a loop that never exits can be told from one that does. *)

From Stdlib Require Import ZArith String Ascii List SpecFloat.
From stdpp Require Import base option list gmap strings pretty.
From stdpp Require Import sorting.

Set Warnings "-register-all".
Open Scope string_scope.

(** ** Python values *)

Inductive pyval : Type :=
| PNone
| PBool (b : bool)
| PInt (z : Z)
| PFloat (f : spec_float)
| PStr (s : string)
| PPath (p : string)
| PList (l : list pyval)
| PDict (d : list (string * pyval)).

(** Python truth value of an object ([bool(v)]). *)
Definition truthy (v : pyval) : bool :=
  match v with
  | PNone => false
  | PBool b => b
  | PInt z => negb (z =? 0)%Z
  | PFloat f => match f with S754_zero _ => false | _ => true end
  | PStr s => negb (String.eqb s "")
  | PPath _ => true
  | PList l => match l with [] => false | _ => true end
  | PDict d => match d with [] => false | _ => true end
  end.

(** [v == s] for a string literal [s]. *)
Definition eq_str (v : pyval) (s : string) : bool :=
  match v with
  | PStr t => String.eqb t s
  | _ => false
  end.

(** ** Exceptions, events and results *)

(** The exceptions of the program. [CollaboratorError] is whatever a
    collaborator raises from inside ([torch.manual_seed] on a seed it
    refuses, [download_and_convert], a handler, [subprocess.run]). *)
Inductive exn : Type :=
| AttributeError (attr : string)
| TypeError
| OSError
| JSONDecodeError
| IndexError
| CollaboratorError
| SystemExit (code : Z).

(** The entry points the router imports: [generate.main], [download.download_main],
    [eval.main], [export.main], [download.list_main], [download.remove_main]. *)
Inductive handler : Type :=
| generate_main
| download_main
| eval_main
| export_main
| list_main
| remove_main.

(** What a run does that can be seen from outside, in program order. *)
Inductive event : Type :=
| EvParserError                                           (* [parser.error]: usage and message *)
| EvManualSeed (seed : pyval)                             (* [torch.manual_seed(seed)] *)
| EvBasicConfig (debug : bool)                            (* [logging.basicConfig] *)
| EvCheckArgs (args : gmap string pyval) (name : string)  (* entry into [check_args] *)
| EvIsModelDownloaded (model dir : pyval)                 (* [is_model_downloaded] *)
| EvDownloadAndConvert (model dir token : pyval)          (* [download_and_convert] *)
| EvHandler (h : handler) (args : gmap string pyval)      (* a subcommand's handler *)
| EvSubprocessRun (command : list string)                 (* [subprocess.run(command)] *)
| EvPrintHelp.                                            (* [parser.print_help()] *)

Inductive result (A : Type) : Type :=
| Ret (a : A)
| Raise (e : exn)
| OutOfFuel.

Arguments Ret {A} a.
Arguments Raise {A} e.
Arguments OutOfFuel {A}.

(** A computation: the events it emitted and how it ended. *)
Definition M (A : Type) : Type := list event * result A.

Definition ret {A} (a : A) : M A := ([], Ret a).
Definition raise {A} (e : exn) : M A := ([], Raise e).
Definition emit (ev : event) : M unit := ([ev], Ret tt).

Definition bind {A B} (m : M A) (k : A -> M B) : M B :=
  match m with
  | (t, Ret a) => let (t', r) := k a in ((t ++ t')%list, r)
  | (t, Raise e) => (t, Raise e)
  | (t, OutOfFuel) => (t, OutOfFuel)
  end.

Declare Scope py_scope.
Delimit Scope py_scope with py.
Notation "'do' x <- m ; k" := (bind m (fun x => k))
  (at level 10, x name, m at level 100, k at level 200) : py_scope.
Notation "m ;; k" := (bind m (fun _ => k))
  (at level 100, k at level 200, right associativity) : py_scope.
Open Scope py_scope.

Definition trace {A} (m : M A) : list event := fst m.
Definition outcome {A} (m : M A) : result A := snd m.

(** Kinds of events, and how often a kind occurs in a trace. *)
Definition is_seeding (ev : event) : bool :=
  match ev with EvManualSeed _ => true | _ => false end.
Definition is_check_args (ev : event) : bool :=
  match ev with EvCheckArgs _ _ => true | _ => false end.
Definition is_artifact_test (ev : event) : bool :=
  match ev with EvIsModelDownloaded _ _ => true | _ => false end.
Definition is_acquisition (ev : event) : bool :=
  match ev with EvDownloadAndConvert _ _ _ => true | _ => false end.
Definition is_handler (ev : event) : bool :=
  match ev with EvHandler _ _ => true | _ => false end.
Definition is_child_process (ev : event) : bool :=
  match ev with EvSubprocessRun _ => true | _ => false end.
Definition is_launch (ev : event) : bool := is_handler ev || is_child_process ev.

Definition occurrences (kind : event -> bool) (tr : list event) : nat :=
  length (List.filter kind tr).

(** The namespace a call received, for the calls that receive it. *)
Definition event_args (ev : event) : option (gmap string pyval) :=
  match ev with
  | EvCheckArgs args _ => Some args
  | EvHandler _ args => Some args
  | _ => None
  end.

(** Process exit status of a finished run of the script. *)
Definition exit_status (r : result unit) : option Z :=
  match r with
  | Ret _ => Some 0%Z
  | Raise (SystemExit c) => Some c
  | Raise _ => Some 1%Z
  | OutOfFuel => None
  end.

(** ** The world outside the program *)

Record World : Type := {
  (** [Path(p).is_file()]; [None] when it raises [OSError], which it does
      when the file system refuses the name itself (a component longer than
      a file name may be, a directory that may not be searched) *)
  is_file : string -> option bool;
  (** [open(p, "r").read()]; [None] when it raises *)
  read_text : string -> option string;
  (** [json.loads]; [None] when the text is not JSON *)
  json_loads : string -> option pyval;
  (** [torch.manual_seed] returns ([true]) or raises ([false]), which it does
      for a seed out of the range of the generator *)
  manual_seed : pyval -> bool;
  (** [download.is_model_downloaded(model, model_directory)] *)
  is_model_downloaded : pyval -> pyval -> bool;
  (** [download.download_and_convert] returns ([true]) or raises ([false]) *)
  download_and_convert : pyval -> pyval -> pyval -> bool;
  (** a subcommand handler returns ([true]) or raises ([false]) *)
  handler_returns : handler -> gmap string pyval -> bool;
  (** [subprocess.run] returns ([true]) or raises ([false]) *)
  subprocess_run : list string -> bool;
  (** the parser of a subcommand ([_add_arguments_common]) on the tokens
      after the subcommand's name: the namespace, or the status it exits with
      (0 after printing help, 2 after a usage error) *)
  parse_subcommand : string -> list string -> gmap string pyval + Z;
  (** the top-level parser on tokens that start with an option string
      ([-h], [--help], an unknown option, ...) *)
  parse_leading_option : list string -> gmap string pyval + Z
}.

(** [args.attr] *)
Definition getattr (args : gmap string pyval) (attr : string) : M pyval :=
  match args !! attr with
  | Some v => ret v
  | None => raise (AttributeError attr)
  end.

(** [Path(v)]: a [str] or a path-like object, [TypeError] otherwise. *)
Definition Path (v : pyval) : M string :=
  match v with
  | PStr s => ret s
  | PPath p => ret p
  | _ => raise TypeError
  end.

(** ** cli.py *)

Module cli.
Section with_world.
Variable w : World.

(** [cli.check_args] (cli.py:19-27). *)
Definition check_args (args : gmap string pyval) (name : string) : M unit :=
  emit (EvCheckArgs args name) ;;
  if bool_decide (name ∈ ["download"; "list"; "remove"]) then ret tt
  else
    do model <- getattr args "model" ;
    if negb (truthy model) then ret tt
    else
      do model <- getattr args "model" ;
      do dir <- getattr args "model_directory" ;
      emit (EvIsModelDownloaded model dir) ;;
      if is_model_downloaded w model dir then ret tt
      else
        do model <- getattr args "model" ;
        do dir <- getattr args "model_directory" ;
        do token <- getattr args "hf_token" ;
        emit (EvDownloadAndConvert model dir token) ;;
        if download_and_convert w model dir token then ret tt
        else raise CollaboratorError.

(** The namespace of an invocation that gives no option and no model: the
    defaults of [_add_arguments_common] (cli.py:70-294), string defaults
    converted by the option's [type] as argparse does. *)
Definition default_namespace : gmap string pyval :=
  list_to_map [
    ("model", PNone); ("chat", PBool false); ("gui", PBool false);
    ("prompt", PStr "Hello, my name is"); ("is_chat_model", PBool false);
    ("seed", PNone); ("num_samples", PInt 1); ("max_new_tokens", PInt 200);
    ("top_k", PInt 200);
    ("temperature", PFloat (S754_finite false 7205759403792794 (-53)));
    ("compile", PBool false); ("compile_prefill", PBool false);
    ("parallel_prefill", PBool false); ("profile", PNone);
    ("speculate_k", PInt 5); ("draft_checkpoint_path", PNone);
    ("checkpoint_path", PPath "not_specified"); ("params_path", PNone);
    ("gguf_path", PNone); ("tokenizer_path", PNone);
    ("output_pte_path", PNone); ("output_dso_path", PNone);
    ("dso_path", PNone); ("pte_path", PNone); ("dtype", PStr "float32");
    ("verbose", PBool false); ("quantize", PStr "{ }");
    ("draft_quantize", PStr "{ }"); ("params_table", PNone);
    ("device", PStr "cpu"); ("tasks", PList [PStr "wikitext"]);
    ("limit", PNone); ("max_seq_length", PNone); ("hf_token", PNone);
    ("model_directory", PPath ".model-artifacts"); ("port", PInt 5000)
  ].

(** First statement of [cli.arg_init] (cli.py:298-300). *)
Definition resolve_quantize (args : gmap string pyval) : M (gmap string pyval) :=
  match args !! "quantize" with
  | None => ret args
  | Some q =>
    do p <- Path q ;
    match is_file w p with
    | None => raise OSError
    | Some true =>
      match read_text w p with
      | None => raise OSError
      | Some text =>
        match json_loads w text with
        | None => raise JSONDecodeError
        | Some j => ret (<["quantize" := j]> args)
        end
      end
    | Some false => ret args
    end
  end.

(** Second statement of [cli.arg_init] (cli.py:302-303). *)
Definition apply_seed (args : gmap string pyval) : M unit :=
  match args !! "seed" with
  | None => ret tt
  | Some seed =>
    if truthy seed then
      emit (EvManualSeed seed) ;;
      if manual_seed w seed then ret tt else raise CollaboratorError
    else ret tt
  end.

(** [cli.arg_init] (cli.py:297-304). *)
Definition arg_init (args : gmap string pyval) : M (gmap string pyval) :=
  do args <- resolve_quantize args ;
  apply_seed args ;;
  ret args.

(** The post-processor run [n] times in a row on the namespace. *)
Fixpoint arg_init_times (n : nat) (args : gmap string pyval) : M (gmap string pyval) :=
  match n with
  | O => ret args
  | S n => do args <- arg_init args ; arg_init_times n args
  end.

End with_world.
End cli.

(** ** torchchat.py *)

Module torchchat.

(** The subcommands registered with [subparsers.add_parser]
    (torchchat.py:41-87). *)
Definition subcommands : list string :=
  ["chat"; "browser"; "download"; "generate"; "eval"; "export"; "list"; "remove"].

(** The variable [port] of the browser branch: the integer it starts with or
    the token taken from [sys.argv]. *)
Inductive port_value : Type :=
| PortInt (n : Z)
| PortStr (s : string).

(** [f"{port}"] *)
Definition format_port (port : port_value) : string :=
  match port with
  | PortInt n => pretty n
  | PortStr s => s
  end.

(** The loop of torchchat.py:112-120 from the state [(i, port, sys.argv)];
    one unit of fuel per evaluation of the loop condition. *)
Fixpoint scan_port (fuel i : nat) (port : port_value) (argv : list string)
  : result (port_value * list string) :=
  match fuel with
  | O => OutOfFuel
  | S fuel =>
    if bool_decide (i < length argv) then
      match argv !! i with
      | None => Raise IndexError
      | Some tok =>
        if String.eqb tok "--port" then
          if bool_decide (i + 1 < length argv) then
            match argv !! (i + 1) with
            | None => Raise IndexError
            | Some value => Ret (PortStr value, (take i argv ++ drop (i + 2) argv)%list)
            end
          else scan_port fuel i port argv
        else scan_port fuel (i + 1) port argv
      end
    else Ret (port, argv)
  end.

Definition squote : string := String "039"%char EmptyString.
Definition dquote : string := String "034"%char EmptyString.

(** ["'{}'".format(s)] *)
Definition quote (s : string) : string := squote ++ s ++ squote.

(** The injected flag, written with its double quotes (torchchat.py:125). *)
Definition chat_flag : string := dquote ++ "--chat" ++ dquote.

(** [args_plus_chat] (torchchat.py:124-126). *)
Definition args_plus_chat (argv : list string) : list string :=
  (map quote (filter (fun s => s <> "browser") (drop 1 argv)) ++ [chat_flag])%list.

(** [command] (torchchat.py:127-135). *)
Definition flask_command (port : port_value) (argv : list string) : list string :=
  let formatted_args := String.concat ", " (args_plus_chat argv) in
  ["flask"; "--app"; "chat_in_browser:create_app(" ++ formatted_args ++ ")";
   "run"; "--port"; format_port port].

(** The handler behind each artifact-management subcommand
    (torchchat.py:137-141 and 156-165). *)
Definition management_handler (command : string) : handler :=
  if String.eqb command "download" then download_main
  else if String.eqb command "list" then list_main
  else remove_main.

(** The handler behind [chat], [generate] and [export]
    (torchchat.py:96-102, 142-146 and 151-155). *)
Definition model_handler (command : string) : handler :=
  if String.eqb command "export" then export_main else generate_main.

(** The namespace after the flags the router forces for [chat] and [browser]
    (torchchat.py:98 and 105-106). *)
Definition forced_flags (command : string) (args : gmap string pyval)
  : gmap string pyval :=
  if String.eqb command "chat" then <["chat" := PBool true]> args
  else if String.eqb command "browser" then
    <["gui" := PBool true]> (<["chat" := PBool true]> args)
  else args.

Section with_world.
Variable w : World.

(** What [parser.error] does: usage and message on stderr, exit status 2. *)
Definition parser_error : M (gmap string pyval) :=
  emit EvParserError ;; raise (SystemExit 2).

Definition parser_outcome (r : gmap string pyval + Z) : M (gmap string pyval) :=
  match r with
  | inl ns => ret ns
  | inr code => raise (SystemExit code)
  end.

(** [parser.parse_args()] for the parser of torchchat.py:30-87 on
    [sys.argv[1:]]. The top-level parser has one positional, the subcommand,
    which is required (torchchat.py:39) and whose choices are the registered
    names: a first token that is no option string is taken as the subcommand
    and rejected unless it is one of them. *)
Definition parse_args (argv : list string) : M (gmap string pyval) :=
  match drop 1 argv with
  | [] => parser_error
  | tok :: rest =>
    if String.prefix "-" tok then parser_outcome (parse_leading_option w (tok :: rest))
    else if bool_decide (tok ∈ subcommands) then
      do ns <- parser_outcome (parse_subcommand w tok rest) ;
      ret (<["command" := PStr tok]> ns)
    else parser_error
  end.

Definition call_handler (h : handler) (args : gmap string pyval) : M unit :=
  emit (EvHandler h args) ;;
  if handler_returns w h args then ret tt else raise CollaboratorError.

(** The rest of the browser branch after [check_args] (torchchat.py:109-136). *)
Definition browser_launch (fuel : nat) (argv : list string) : M unit :=
  do scanned <- ([], scan_port fuel 2 (PortInt 5000) argv) ;
  let command := flask_command scanned.1 scanned.2 in
  emit (EvSubprocessRun command) ;;
  if subprocess_run w command then ret tt else raise CollaboratorError.

(** The chain of [if]/[elif] on [args.command] (torchchat.py:96-167).
    No branch assigns [args.command], so the attribute is read once. *)
Definition dispatch (fuel : nat) (argv : list string) (args : gmap string pyval) : M unit :=
  do command <- getattr args "command" ;
  if eq_str command "chat" then
    let args := <["chat" := PBool true]> args in
    cli.check_args w args "chat" ;;
    call_handler generate_main args
  else if eq_str command "browser" then
    let args := <["gui" := PBool true]> (<["chat" := PBool true]> args) in
    cli.check_args w args "browser" ;;
    browser_launch fuel argv
  else if eq_str command "download" then
    cli.check_args w args "download" ;;
    call_handler download_main args
  else if eq_str command "generate" then
    cli.check_args w args "generate" ;;
    call_handler generate_main args
  else if eq_str command "eval" then
    call_handler eval_main args
  else if eq_str command "export" then
    cli.check_args w args "export" ;;
    call_handler export_main args
  else if eq_str command "list" then
    cli.check_args w args "list" ;;
    call_handler list_main args
  else if eq_str command "remove" then
    cli.check_args w args "remove" ;;
    call_handler remove_main args
  else emit EvPrintHelp.

(** The script from the parsed namespace on (torchchat.py:91-167). *)
Definition run (fuel : nat) (argv : list string) (args : gmap string pyval) : M unit :=
  do args <- cli.arg_init w args ;
  do verbose <- getattr args "verbose" ;
  emit (EvBasicConfig (truthy verbose)) ;;
  dispatch fuel argv args.

(** The [__main__] block (torchchat.py:28-167) on [sys.argv]. *)
Definition main (fuel : nat) (argv : list string) : M unit :=
  do args <- parse_args argv ;
  run fuel argv args.

End with_world.
End torchchat.

(** ** cli.py: the argument schema

    [_add_arguments_common] (cli.py:70-294) and the eight functions that
    call it (cli.py:30-67). An [add_argument] call is a record of what it
    passes; help texts are left out, they only feed the usage message. The
    target of the calls is a parser, of which the registered option strings
    and actions are kept. *)

Module arguments.

(** The [type=] of an option; [TypeNone] when none is given. *)
Inductive arg_type : Type := TypeStr | TypeInt | TypeFloat | TypePath | TypeNone.

(** The [action=] of an option; [Store] when none is given. *)
Inductive arg_action : Type := Store | StoreTrue.

(** The [nargs=] of an option. *)
Inductive arg_nargs : Type := NargsOne | NargsOptional | NargsPlus.

Record argument : Type := {
  name_or_flags : list string;
  type : arg_type;
  action : arg_action;
  nargs : arg_nargs;
  default : option pyval;            (* [None]: no [default=] *)
  choices : option (list string)     (* [None]: no [choices=] *)
}.

Definition flag (flags : list string) : argument :=
  {| name_or_flags := flags; type := TypeNone; action := StoreTrue;
     nargs := NargsOne; default := None; choices := None |}.

Definition option_ (flags : list string) (t : arg_type) (d : option pyval) : argument :=
  {| name_or_flags := flags; type := t; action := Store;
     nargs := NargsOne; default := d; choices := None |}.

Section catalogs.
(** [build.utils.allowable_dtype_names()] and
    [build.utils.allowable_params_table()]. *)
Variables allowable_dtype_names allowable_params_table : list string.

(** The calls of [_add_arguments_common], in order (cli.py:75-294). *)
Definition _add_arguments_common : list argument := [
  {| name_or_flags := ["model"]; type := TypeStr; action := Store;
     nargs := NargsOptional; default := Some PNone; choices := None |};
  flag ["--chat"];
  flag ["--gui"];
  option_ ["--prompt"] TypeStr (Some (PStr "Hello, my name is"));
  flag ["--is-chat-model"];
  option_ ["--seed"] TypeInt (Some PNone);
  option_ ["--num-samples"] TypeInt (Some (PInt 1));
  option_ ["--max-new-tokens"] TypeInt (Some (PInt 200));
  option_ ["--top-k"] TypeInt (Some (PInt 200));
  option_ ["--temperature"] TypeFloat
    (Some (PFloat (S754_finite false 7205759403792794 (-53))));
  flag ["--compile"];
  flag ["--compile-prefill"];
  flag ["--parallel-prefill"];
  option_ ["--profile"] TypePath (Some PNone);
  option_ ["--speculate-k"] TypeInt (Some (PInt 5));
  option_ ["--draft-checkpoint-path"] TypePath (Some PNone);
  option_ ["--checkpoint-path"] TypePath (Some (PStr "not_specified"));
  option_ ["--params-path"] TypePath (Some PNone);
  option_ ["--gguf-path"] TypePath (Some PNone);
  option_ ["--tokenizer-path"] TypePath (Some PNone);
  option_ ["--output-pte-path"] TypeStr (Some PNone);
  option_ ["--output-dso-path"] TypeStr (Some PNone);
  option_ ["--dso-path"] TypePath (Some PNone);
  option_ ["--pte-path"] TypePath (Some PNone);
  {| name_or_flags := ["-d"; "--dtype"]; type := TypeNone; action := Store;
     nargs := NargsOne; default := Some (PStr "float32");
     choices := Some allowable_dtype_names |};
  flag ["-v"; "--verbose"];
  option_ ["--quantize"] TypeStr (Some (PStr "{ }"));
  option_ ["--draft-quantize"] TypeStr (Some (PStr "{ }"));
  {| name_or_flags := ["--params-table"]; type := TypeStr; action := Store;
     nargs := NargsOne; default := Some PNone;
     choices := Some allowable_params_table |};
  {| name_or_flags := ["--device"]; type := TypeStr; action := Store;
     nargs := NargsOne; default := Some (PStr "cpu");
     choices := Some ["cpu"; "cuda"; "mps"] |};
  {| name_or_flags := ["--tasks"]; type := TypeStr; action := Store;
     nargs := NargsPlus; default := Some (PList [PStr "wikitext"]);
     choices := None |};
  option_ ["--limit"] TypeInt (Some PNone);
  option_ ["--max-seq-length"] TypeInt (Some PNone);
  option_ ["--hf-token"] TypeStr (Some PNone);
  option_ ["--model-directory"] TypePath (Some (PStr ".model-artifacts"));
  option_ ["--port"] TypeInt (Some (PInt 5000))
].

(** cli.py:30-67: each subcommand registers the common arguments and none of
    its own. *)
Definition add_arguments_for_chat := _add_arguments_common.
Definition add_arguments_for_browser := _add_arguments_common.
Definition add_arguments_for_download := _add_arguments_common.
Definition add_arguments_for_generate := _add_arguments_common.
Definition add_arguments_for_eval := _add_arguments_common.
Definition add_arguments_for_export := _add_arguments_common.
Definition add_arguments_for_list := _add_arguments_common.
Definition add_arguments_for_remove := _add_arguments_common.

End catalogs.

(** *** What argparse makes of an [add_argument] call *)

(** One name that starts with no [-] declares a positional. *)
Definition is_positional (a : argument) : bool :=
  match name_or_flags a with
  | [name] => negb (String.prefix "-" name)
  | _ => false
  end.

Definition option_strings (a : argument) : list string :=
  if is_positional a then [] else name_or_flags a.

(** A long option string: more than one character, the second a [-]. *)
Definition is_long (s : string) : bool :=
  match s with
  | String _ (String c _) => Ascii.eqb c "-"
  | _ => false
  end.

(** [s.lstrip("-")] *)
Fixpoint lstrip_dash (s : string) : string :=
  match s with
  | String c rest => if Ascii.eqb c "-" then lstrip_dash rest else s
  | EmptyString => s
  end.

(** [s.replace("-", "_")] *)
Fixpoint replace_dash (s : string) : string :=
  match s with
  | String c rest => String (if Ascii.eqb c "-" then "_"%char else c) (replace_dash rest)
  | EmptyString => EmptyString
  end.

(** The attribute an argument is stored under: the name of a positional;
    for an option its first long option string, or else its first option
    string, without the leading dashes and with [_] for [-]. *)
Definition dest (a : argument) : string :=
  if is_positional a then List.hd "" (name_or_flags a)
  else
    let first := List.hd "" (name_or_flags a) in
    replace_dash (lstrip_dash (List.hd first (List.filter is_long (name_or_flags a)))).

(** The value of an argument that the command line does not give: [False]
    for a [store_true]; a default that is a string goes through the
    argument's [type]; any other default is taken as it is. A string default
    of an [int] or [float] argument would be parsed as a number, which is not
    modelled ([None]); the schema has none. *)
Definition default_value (a : argument) : option pyval :=
  match action a with
  | StoreTrue => Some (PBool false)
  | Store =>
    match default a with
    | None => Some PNone
    | Some (PStr s) =>
      match type a with
      | TypeStr | TypeNone => Some (PStr s)
      | TypePath => Some (PPath s)
      | TypeInt | TypeFloat => None
      end
    | Some v => Some v
    end
  end.

(** A parser: the option strings it knows and its arguments, in order. *)
Record parser : Type := {
  known_option_strings : list string;
  arguments : list argument
}.

(** What [subparsers.add_parser] returns: a parser with the help option. *)
Definition new_parser : parser :=
  {| known_option_strings := ["-h"; "--help"]; arguments := [] |}.

(** [parser.add_argument]: an option string the parser knows already is a
    conflict, and argparse raises ([None]). *)
Definition add_argument (p : parser) (a : argument) : option parser :=
  if existsb (fun s => bool_decide (s ∈ known_option_strings p)) (option_strings a)
  then None
  else Some {| known_option_strings := (known_option_strings p ++ option_strings a)%list;
               arguments := (arguments p ++ [a])%list |}.

(** The calls in order on one parser, up to the first that raises. *)
Fixpoint add_arguments (p : parser) (calls : list argument) : option parser :=
  match calls with
  | [] => Some p
  | a :: calls =>
    match add_argument p a with
    | Some p' => add_arguments p' calls
    | None => None
    end
  end.

(** The namespace of a command line that gives none of the arguments. *)
Definition defaults (args : list argument) : option (gmap string pyval) :=
  list_to_map <$> mapM (fun a => pair (dest a) <$> default_value a) args.

End arguments.

(** ** Further kinds of events and results *)

Definition is_print_help (ev : event) : bool :=
  match ev with EvPrintHelp => true | _ => false end.

Definition is_attribute_error {A} (r : result A) : bool :=
  match r with Raise (AttributeError _) => true | _ => false end.

(** The stage of the script an event belongs to: parsing, post-processing,
    logging set-up, the precondition checker's entry, its artifact test, its
    acquisition, and what the router starts or prints last. *)
Definition phase (ev : event) : nat :=
  match ev with
  | EvParserError => 0
  | EvManualSeed _ => 1
  | EvBasicConfig _ => 2
  | EvCheckArgs _ _ => 3
  | EvIsModelDownloaded _ _ => 4
  | EvDownloadAndConvert _ _ _ => 5
  | EvHandler _ _ | EvSubprocessRun _ | EvPrintHelp => 6
  end.

(** A trace whose events come in strictly increasing stages: no stage twice,
    none after a later one. *)
Definition staged (tr : list event) : Prop :=
  StronglySorted (fun e1 e2 => phase e1 < phase e2) tr.

(** The seeding step of [cli.arg_init] returns on the namespace: there is no
    seed to apply, or the generator takes it. *)
Definition seed_accepted (w : World) (args : gmap string pyval) : bool :=
  match args !! "seed" with
  | Some seed => negb (truthy seed) || manual_seed w seed
  | None => true
  end.

(** ** Sample invocations

    A world with two files, [q.json] holding [{}] and [notes.txt] holding
    text that is no JSON, in which a name of more than 255 characters makes
    the file test raise, the generator takes the seeds from [-2^63] to
    [2^64 - 1], no model is downloaded yet and every other collaborator
    returns; and namespaces as the parser builds them. *)

Module sample.

Definition files : list (string * string) :=
  [("q.json", "{}"); ("notes.txt", "hello")].

Definition lookup_file (p : string) : option string :=
  snd <$> List.find (fun f => String.eqb (fst f) p) files.

Definition world : World := {|
  is_file := fun p =>
    if (255 <? String.length p)%nat then None
    else Some (bool_decide (is_Some (lookup_file p)));
  read_text := lookup_file;
  json_loads := fun s =>
    if String.eqb s "{}" then Some (PDict [])
    else if String.eqb s "{ }" then Some (PDict [])
    else None;
  manual_seed := fun seed =>
    match seed with
    | PInt z => (- 2 ^ 63 <=? z)%Z && (z <? 2 ^ 64)%Z
    | _ => false
    end;
  is_model_downloaded := fun _ _ => false;
  download_and_convert := fun _ _ _ => true;
  handler_returns := fun _ _ => true;
  subprocess_run := fun _ => true;
  parse_subcommand := fun _ toks =>
    match toks with
    | [] => inl cli.default_namespace
    | _ => inr 2%Z
    end;
  parse_leading_option := fun _ => inr 2%Z
|}.

(** [torchchat.py <command> <model>] *)
Definition named (command model : string) : gmap string pyval :=
  <["command" := PStr command]> (<["model" := PStr model]> cli.default_namespace).

(** [torchchat.py <command> <model> --seed <seed>] *)
Definition seeded (command model : string) (seed : Z) : gmap string pyval :=
  <["seed" := PInt seed]> (named command model).

(** [torchchat.py <command> <model> --quantize <quantize>] *)
Definition quantized (command model quantize : string) : gmap string pyval :=
  <["quantize" := PStr quantize]> (named command model).

Definition argv (tokens : list string) : list string := "torchchat.py" :: tokens.

(** One mode of an inline quantization configuration, as the help text of
    [--quantize] writes it: the mode's name and its options in braces. *)
Definition json_mode (mode : string) (options : list (string * string)) : string :=
  torchchat.dquote ++ mode ++ torchchat.dquote ++ ": {" ++
  String.concat ", "
    (map (fun o => torchchat.dquote ++ fst o ++ torchchat.dquote ++ ": " ++ snd o) options)
  ++ "}".

(** An inline configuration that names six modes, 279 characters long. *)
Definition long_inline_json : string :=
  "{" ++
  String.concat ", " [
    json_mode "embedding" [("bitwidth", "4"); ("groupsize", "32")];
    json_mode "linear:int8" [("bitwidth", "8"); ("groupsize", "256")];
    json_mode "linear:int4" [("groupsize", "128"); ("padding_allowed", "false")];
    json_mode "linear:a8w4dq" [("groupsize", "256")];
    json_mode "precision" [("dtype", torchchat.dquote ++ "bfloat16" ++ torchchat.dquote)];
    json_mode "linear:hqq" [("groupsize", "64"); ("bitwidth", "4")]
  ] ++ "}".

(** The same world when the acquisition raises. *)
Definition offline_world : World := {|
  is_file := is_file world;
  read_text := read_text world;
  json_loads := json_loads world;
  manual_seed := manual_seed world;
  is_model_downloaded := is_model_downloaded world;
  download_and_convert := fun _ _ _ => false;
  handler_returns := handler_returns world;
  subprocess_run := subprocess_run world;
  parse_subcommand := parse_subcommand world;
  parse_leading_option := parse_leading_option world
|}.

End sample.

(** * Properties *)

Open Scope list_scope.

Arguments cli.check_args : simpl never.
Arguments cli.arg_init : simpl never.
Arguments torchchat.call_handler : simpl never.
Arguments torchchat.browser_launch : simpl never.
Arguments torchchat.dispatch : simpl never.

(** ** Computations *)

Lemma trace_bind {A B} (m : M A) (k : A -> M B) :
  trace (bind m k) =
  (trace m ++ match outcome m with Ret a => trace (k a) | _ => [] end)%list.
Proof.
  destruct m as [t [a | e | ]]; simpl; rewrite ?app_nil_r; auto.
  destruct (k a); reflexivity.
Qed.

Lemma outcome_bind {A B} (m : M A) (k : A -> M B) :
  outcome (bind m k) =
  match outcome m with
  | Ret a => outcome (k a)
  | Raise e => Raise e
  | OutOfFuel => OutOfFuel
  end.
Proof.
  destruct m as [t [a | e | ]]; simpl; auto. destruct (k a); reflexivity.
Qed.

Lemma occurrences_app kind (t1 t2 : list event) :
  occurrences kind (t1 ++ t2) = occurrences kind t1 + occurrences kind t2.
Proof. unfold occurrences. rewrite List.filter_app, length_app. reflexivity. Qed.

Lemma occurrences_none kind (tr : list event) :
  occurrences kind tr = 0 <-> forall ev, ev ∈ tr -> kind ev = false.
Proof.
  unfold occurrences. induction tr as [| e tr IH]; simpl.
  - split; [intros _ ev Hev; inversion Hev | reflexivity].
  - destruct (kind e) eqn:He; simpl.
    + split; [discriminate |].
      intros H. specialize (H e (list_elem_of_here _ _)). congruence.
    + rewrite IH. split.
      * intros H ev Hev. apply elem_of_cons in Hev as [-> | Hev]; auto.
      * intros H ev Hev. apply H. by apply list_elem_of_further.
Qed.

Lemma occurrences_filter kind (tr : list event) :
  occurrences kind tr = 0 -> List.filter kind tr = [].
Proof. unfold occurrences. by destruct (List.filter kind tr). Qed.

(** An event of a kind that does not occur in a prefix of a trace lies after
    that prefix. *)
Lemma split_after_prefix kind (pre rest before after : list event) ev :
  pre ++ rest = before ++ ev :: after ->
  occurrences kind pre = 0 -> kind ev = true ->
  exists mid, before = pre ++ mid /\ rest = mid ++ ev :: after.
Proof.
  revert before. induction pre as [| e pre IH]; intros before Heq Hpre Hev.
  - exists before. split; [reflexivity | exact Heq].
  - assert (He : kind e = false /\ occurrences kind pre = 0).
    { unfold occurrences in *. simpl in Hpre.
      destruct (kind e); [discriminate | ]. by split. }
    destruct He as [He Hpre'].
    destruct before as [| b before]; simpl in Heq.
    + injection Heq as -> _. congruence.
    + injection Heq as -> Heq.
      destruct (IH before Heq Hpre' Hev) as (mid & -> & ->).
      exists mid. by split.
Qed.

(** ** The post-processor, [cli.arg_init] *)

Lemma resolve_quantize_trace w (args : gmap string pyval) :
  trace (cli.resolve_quantize w args) = [].
Proof.
  unfold cli.resolve_quantize.
  destruct (args !! "quantize") as [q |]; [| reflexivity].
  destruct q; simpl; try reflexivity;
    (destruct (is_file w _) as [[|] |]; try reflexivity;
     destruct (read_text w _) as [text |]; try reflexivity;
     destruct (json_loads w text); reflexivity).
Qed.

(** Post-processing touches no attribute but [quantize]. *)
Lemma resolve_quantize_frame w (args args' : gmap string pyval) (k : string) :
  outcome (cli.resolve_quantize w args) = Ret args' ->
  k <> "quantize" -> args' !! k = args !! k.
Proof.
  unfold cli.resolve_quantize. intros H Hk.
  destruct (args !! "quantize") as [q |]; [| simpl in H; congruence].
  destruct q; simpl in H; try discriminate;
    (destruct (is_file w _) as [[|] |]; simpl in H; try congruence;
     destruct (read_text w _) as [text |]; simpl in H; try discriminate;
     destruct (json_loads w text); simpl in H; try discriminate;
     injection H as <-; by rewrite lookup_insert_ne).
Qed.

Lemma resolve_quantize_no_fuel w (args : gmap string pyval) :
  outcome (cli.resolve_quantize w args) <> OutOfFuel.
Proof.
  unfold cli.resolve_quantize.
  destruct (args !! "quantize") as [q |]; [| discriminate].
  destruct q; simpl; try discriminate;
    (destruct (is_file w _) as [[|] |]; try discriminate;
     destruct (read_text w _) as [text |]; try discriminate;
     destruct (json_loads w text); discriminate).
Qed.

Lemma apply_seed_trace w (args : gmap string pyval) :
  trace (cli.apply_seed w args) =
  match args !! "seed" with
  | Some seed => if truthy seed then [EvManualSeed seed] else []
  | None => []
  end.
Proof.
  unfold cli.apply_seed. destruct (args !! "seed") as [s |]; [| reflexivity].
  destruct (truthy s); [| reflexivity].
  simpl. destruct (manual_seed w s); reflexivity.
Qed.

(** The seeding step returns when the generator takes the seed, and raises
    what the generator raises when it does not. *)
Lemma apply_seed_outcome w (args : gmap string pyval) :
  outcome (cli.apply_seed w args) =
  if seed_accepted w args then Ret tt else Raise CollaboratorError.
Proof.
  unfold cli.apply_seed, seed_accepted.
  destruct (args !! "seed") as [s |]; [| reflexivity].
  destruct (truthy s); [| reflexivity].
  simpl. destruct (manual_seed w s); reflexivity.
Qed.

Lemma seed_accepted_resolved w (args args' : gmap string pyval) :
  outcome (cli.resolve_quantize w args) = Ret args' ->
  seed_accepted w args' = seed_accepted w args.
Proof.
  intros H. unfold seed_accepted.
  by rewrite (resolve_quantize_frame w args args' "seed" H).
Qed.

(** How the post-processor ends: as quantization resolution when that does
    not return, as the seeding step otherwise. *)
Lemma arg_init_outcome w (args : gmap string pyval) :
  outcome (cli.arg_init w args) =
  match outcome (cli.resolve_quantize w args) with
  | Ret args' => if seed_accepted w args then Ret args' else Raise CollaboratorError
  | Raise e => Raise e
  | OutOfFuel => OutOfFuel
  end.
Proof.
  unfold cli.arg_init. rewrite outcome_bind.
  destruct (outcome (cli.resolve_quantize w args)) as [a | e |] eqn:H; try reflexivity.
  rewrite outcome_bind, apply_seed_outcome, (seed_accepted_resolved w args a H).
  destruct (seed_accepted w args); reflexivity.
Qed.

Lemma arg_init_accepted w (args : gmap string pyval) :
  seed_accepted w args = true ->
  outcome (cli.arg_init w args) = outcome (cli.resolve_quantize w args).
Proof.
  intros Hs. rewrite arg_init_outcome, Hs.
  by destruct (outcome (cli.resolve_quantize w args)).
Qed.

Lemma arg_init_returns w (args args' : gmap string pyval) :
  outcome (cli.arg_init w args) = Ret args' ->
  outcome (cli.resolve_quantize w args) = Ret args' /\ seed_accepted w args = true.
Proof.
  rewrite arg_init_outcome.
  destruct (outcome (cli.resolve_quantize w args)) as [a | e |]; try discriminate.
  destruct (seed_accepted w args); [| discriminate].
  intros [= ->]. by split.
Qed.

Lemma arg_init_no_fuel w (args : gmap string pyval) :
  outcome (cli.arg_init w args) <> OutOfFuel.
Proof.
  rewrite arg_init_outcome.
  pose proof (resolve_quantize_no_fuel w args) as H.
  destruct (outcome (cli.resolve_quantize w args)) as [a | e |]; try done.
  by destruct (seed_accepted w args).
Qed.

(** What the post-processor emits: what its seeding step emits when
    quantization resolution returns, nothing when it does not. *)
Lemma arg_init_trace_resolved w (args : gmap string pyval) :
  trace (cli.arg_init w args) =
  match outcome (cli.resolve_quantize w args) with
  | Ret _ => trace (cli.apply_seed w args)
  | _ => []
  end.
Proof.
  unfold cli.arg_init. rewrite trace_bind, resolve_quantize_trace.
  destruct (outcome (cli.resolve_quantize w args)) as [a | e |] eqn:H; try reflexivity.
  simpl. rewrite trace_bind, !apply_seed_trace.
  rewrite (resolve_quantize_frame w args a "seed" H) by done.
  destruct (outcome (cli.apply_seed w a)); simpl; by rewrite app_nil_r.
Qed.

Lemma arg_init_trace w (args args' : gmap string pyval) :
  outcome (cli.arg_init w args) = Ret args' ->
  trace (cli.arg_init w args) = trace (cli.apply_seed w args).
Proof.
  intros H. apply arg_init_returns in H as [H _].
  by rewrite arg_init_trace_resolved, H.
Qed.

Lemma arg_init_frame w (args args' : gmap string pyval) (k : string) :
  outcome (cli.arg_init w args) = Ret args' ->
  k <> "quantize" -> args' !! k = args !! k.
Proof.
  intros H. apply arg_init_returns in H as [H _]. by apply (resolve_quantize_frame w).
Qed.

Lemma resolve_quantize_file w (args : gmap string pyval) q text j :
  args !! "quantize" = Some (PStr q) ->
  is_file w q = Some true -> read_text w q = Some text -> json_loads w text = Some j ->
  outcome (cli.resolve_quantize w args) = Ret (<["quantize" := j]> args).
Proof.
  unfold cli.resolve_quantize.
  intros -> Hf Hr Hj. simpl. rewrite Hf, Hr, Hj. reflexivity.
Qed.

Lemma resolve_quantize_file_not_json w (args : gmap string pyval) q text :
  args !! "quantize" = Some (PStr q) ->
  is_file w q = Some true -> read_text w q = Some text -> json_loads w text = None ->
  outcome (cli.resolve_quantize w args) = Raise JSONDecodeError.
Proof.
  unfold cli.resolve_quantize.
  intros -> Hf Hr Hj. simpl. rewrite Hf, Hr, Hj. reflexivity.
Qed.

Lemma resolve_quantize_absent w (args : gmap string pyval) :
  args !! "quantize" = None -> outcome (cli.resolve_quantize w args) = Ret args.
Proof. unfold cli.resolve_quantize. intros ->. reflexivity. Qed.

Lemma resolve_quantize_no_file w (args : gmap string pyval) q :
  args !! "quantize" = Some (PStr q) -> is_file w q = Some false ->
  outcome (cli.resolve_quantize w args) = Ret args.
Proof.
  unfold cli.resolve_quantize. intros -> Hf. simpl. rewrite Hf. reflexivity.
Qed.

Lemma resolve_quantize_file_test_raises w (args : gmap string pyval) q :
  args !! "quantize" = Some (PStr q) -> is_file w q = None ->
  outcome (cli.resolve_quantize w args) = Raise OSError.
Proof.
  unfold cli.resolve_quantize. intros -> Hf. simpl. rewrite Hf. reflexivity.
Qed.

Lemma arg_init_raises_early w (args : gmap string pyval) e :
  outcome (cli.resolve_quantize w args) = Raise e ->
  cli.arg_init w args = ([], Raise e).
Proof.
  intros H.
  pose proof (arg_init_trace_resolved w args) as Ht.
  pose proof (arg_init_outcome w args) as Ho.
  rewrite H in Ht, Ho.
  destruct (cli.arg_init w args) as [t r]. simpl in *. by subst.
Qed.

Lemma arg_init_file w (args : gmap string pyval) q text j :
  args !! "quantize" = Some (PStr q) ->
  is_file w q = Some true -> read_text w q = Some text -> json_loads w text = Some j ->
  seed_accepted w args = true ->
  outcome (cli.arg_init w args) = Ret (<["quantize" := j]> args).
Proof.
  intros Hq Hf Hr Hj Hs. rewrite (arg_init_accepted w args Hs).
  by apply (resolve_quantize_file w args q text j).
Qed.

Lemma arg_init_no_file w (args : gmap string pyval) q :
  args !! "quantize" = Some (PStr q) -> is_file w q = Some false ->
  seed_accepted w args = true ->
  outcome (cli.arg_init w args) = Ret args.
Proof.
  intros Hq Hf Hs. rewrite (arg_init_accepted w args Hs).
  by apply (resolve_quantize_no_file w args q).
Qed.

(** C5. Quantization resolution by the post-processor, on a string that
    names no file. The sample configuration is inline JSON of 279 characters,
    no file has that name, and the file test [Path(args.quantize).is_file()]
    raises on a name of that length: the post-processor raises [OSError]
    where the string is to be left for the handler to decode, and the run
    ends there, before the logging set-up and the router. *)
Lemma C5_long_inline_json_raises :
  String.length sample.long_inline_json = 279 /\
  sample.lookup_file sample.long_inline_json = None /\
  is_file sample.world sample.long_inline_json = None /\
  cli.arg_init sample.world
    (sample.quantized "generate" "llama3" sample.long_inline_json)
  = ([], Raise OSError) /\
  torchchat.run sample.world 8
    (sample.argv ["generate"; "llama3"; "--quantize"; sample.long_inline_json])
    (sample.quantized "generate" "llama3" sample.long_inline_json)
  = ([], Raise OSError).
Proof. repeat split; vm_compute; reflexivity. Qed.

(** X15. Quantization resolution by the post-processor. On a namespace
    whose seed, if any, the generator takes: a [quantize] string for which the
    file test answers yes is replaced by the JSON value parsed from that
    file's text, whether or not the string is itself JSON text; when the
    attribute is absent, or the file test answers no, the post-processor
    returns the namespace as it is. Whatever the seed, the string is never
    decoded as inline JSON: when the file's text is not JSON the
    post-processor raises, and it raises [OSError] when the file test itself
    raises, both without any event. *)
Theorem X15_quantize_resolution (w : World) (args : gmap string pyval) :
  (forall q text j,
      args !! "quantize" = Some (PStr q) ->
      is_file w q = Some true -> read_text w q = Some text ->
      json_loads w text = Some j ->
      seed_accepted w args = true ->
      outcome (cli.arg_init w args) = Ret (<["quantize" := j]> args)) /\
  (forall q text,
      args !! "quantize" = Some (PStr q) ->
      is_file w q = Some true -> read_text w q = Some text ->
      json_loads w text = None ->
      cli.arg_init w args = ([], Raise JSONDecodeError)) /\
  (args !! "quantize" = None ->
      seed_accepted w args = true ->
      outcome (cli.arg_init w args) = Ret args) /\
  (forall q,
      args !! "quantize" = Some (PStr q) -> is_file w q = Some false ->
      seed_accepted w args = true ->
      outcome (cli.arg_init w args) = Ret args) /\
  (forall q,
      args !! "quantize" = Some (PStr q) -> is_file w q = None ->
      cli.arg_init w args = ([], Raise OSError)).
Proof.
  split; [| split; [| split; [| split]]].
  - apply arg_init_file.
  - intros q text Hq Hf Hr Hj. apply arg_init_raises_early.
    by apply (resolve_quantize_file_not_json w args q text).
  - intros Hq Hs. rewrite (arg_init_accepted w args Hs).
    by apply resolve_quantize_absent.
  - apply arg_init_no_file.
  - intros q Hq Hf. apply arg_init_raises_early.
    by apply (resolve_quantize_file_test_raises w args q).
Qed.

Lemma X15_quantize_resolution_witness :
  outcome (cli.arg_init sample.world (sample.quantized "generate" "llama3" "q.json"))
  = Ret (<["quantize" := PDict []]> (sample.quantized "generate" "llama3" "q.json"))
  /\ outcome (cli.arg_init sample.world (delete "quantize" cli.default_namespace))
     = Ret (delete "quantize" cli.default_namespace)
  /\ outcome (cli.arg_init sample.world (sample.named "generate" "llama3"))
     = Ret (sample.named "generate" "llama3")
  /\ cli.arg_init sample.world (sample.quantized "generate" "llama3" "notes.txt")
     = ([], Raise JSONDecodeError)
  /\ cli.arg_init sample.world
       (sample.quantized "generate" "llama3" sample.long_inline_json)
     = ([], Raise OSError).
Proof.
  split; [| split; [| split; [| split]]].
  - apply (proj1 (X15_quantize_resolution sample.world _) "q.json" "{}");
      reflexivity.
  - apply (proj1 (proj2 (proj2 (X15_quantize_resolution sample.world _))));
      reflexivity.
  - apply (proj1 (proj2 (proj2 (proj2 (X15_quantize_resolution sample.world _)))) "{ }");
      reflexivity.
  - apply (proj1 (proj2 (X15_quantize_resolution sample.world _)) "notes.txt" "hello");
      reflexivity.
  - apply (proj2 (proj2 (proj2 (proj2 (X15_quantize_resolution sample.world _))))
             sample.long_inline_json);
      reflexivity.
Defined.

(** C6, as stated, fails: the file [q.json] holds the JSON object [{}]; the
    first run of the post-processor resolves [quantize] to that object, and a
    second run on the resolved namespace raises [TypeError] at
    [Path(args.quantize)]. *)
Lemma C6_second_run_raises :
  is_file sample.world "q.json" = Some true /\
  outcome (cli.arg_init_times sample.world 1 (sample.quantized "generate" "llama3" "q.json"))
  = Ret (<["quantize" := PDict []]> (sample.quantized "generate" "llama3" "q.json")) /\
  outcome (cli.arg_init_times sample.world 2 (sample.quantized "generate" "llama3" "q.json"))
  = Raise TypeError.
Proof. repeat split; vm_compute; reflexivity. Qed.

Lemma arg_init_times_S w n (args : gmap string pyval) :
  outcome (cli.arg_init_times w (S n) args) =
  match outcome (cli.arg_init w args) with
  | Ret args' => outcome (cli.arg_init_times w n args')
  | Raise e => Raise e
  | OutOfFuel => OutOfFuel
  end.
Proof. simpl. apply outcome_bind. Qed.

Lemma resolve_quantize_not_path w (args : gmap string pyval) v :
  args !! "quantize" = Some v ->
  (forall s, v <> PStr s) -> (forall s, v <> PPath s) ->
  outcome (cli.resolve_quantize w args) = Raise TypeError.
Proof.
  intros Hq Hs Hp. unfold cli.resolve_quantize.
  rewrite Hq. destruct v; try reflexivity; [destruct (Hs s) | destruct (Hp p)]; reflexivity.
Qed.

Lemma arg_init_not_path w (args : gmap string pyval) v :
  args !! "quantize" = Some v ->
  (forall s, v <> PStr s) -> (forall s, v <> PPath s) ->
  outcome (cli.arg_init w args) = Raise TypeError.
Proof.
  intros Hq Hs Hp.
  by rewrite arg_init_outcome, (resolve_quantize_not_path w args v).
Qed.

Lemma arg_init_times_fixed w n (args : gmap string pyval) s :
  args !! "quantize" = Some (PStr s) -> is_file w s = Some false ->
  seed_accepted w args = true ->
  outcome (cli.arg_init_times w n args) = Ret args.
Proof.
  intros Hq Hf Hs. induction n as [| n IH]; [reflexivity |].
  rewrite arg_init_times_S.
  rewrite (arg_init_no_file w args s Hq Hf Hs). exact IH.
Qed.

Lemma seed_accepted_insert_quantize w (args : gmap string pyval) j :
  seed_accepted w (<["quantize" := j]> args) = seed_accepted w args.
Proof. unfold seed_accepted. by rewrite lookup_insert_ne. Qed.

(** C6, amended. For a [quantize] string that names an existing file whose
    text is JSON, on a namespace whose seed, if any, the generator takes, one
    run of the post-processor yields the value parsed from that file. A
    further run on the resolved namespace raises [TypeError] when that value
    is not a string (an object, an array, a number, a boolean or null), so
    does every longer sequence of runs; when the value is a string that the
    file test reports as naming no file, any number of runs, at least one,
    yields the same resolved configuration. *)
Theorem C6_quantize_resolution_runs (w : World) (args : gmap string pyval)
    (q text : string) (j : pyval) :
  args !! "quantize" = Some (PStr q) ->
  is_file w q = Some true -> read_text w q = Some text -> json_loads w text = Some j ->
  seed_accepted w args = true ->
  outcome (cli.arg_init_times w 1 args) = Ret (<["quantize" := j]> args) /\
  ((forall s, j <> PStr s) -> (forall s, j <> PPath s) ->
   forall n, outcome (cli.arg_init_times w (S (S n)) args) = Raise TypeError) /\
  (forall s, j = PStr s -> is_file w s = Some false ->
   forall n, outcome (cli.arg_init_times w (S n) args) = Ret (<["quantize" := j]> args)).
Proof.
  intros Hq Hf Hr Hj Hseed.
  pose proof (arg_init_file w args q text j Hq Hf Hr Hj Hseed) as H1.
  repeat split.
  - rewrite arg_init_times_S, H1. reflexivity.
  - intros Hs Hp n. rewrite arg_init_times_S, H1, arg_init_times_S.
    rewrite (arg_init_not_path w _ j); auto. apply lookup_insert_eq.
  - intros s -> Hs n. rewrite arg_init_times_S, H1.
    apply (arg_init_times_fixed w n _ s); auto; [apply lookup_insert_eq |].
    by rewrite seed_accepted_insert_quantize.
Qed.

Lemma C6_quantize_resolution_runs_witness :
  outcome (cli.arg_init_times sample.world 1 (sample.quantized "generate" "llama3" "q.json"))
  = Ret (<["quantize" := PDict []]> (sample.quantized "generate" "llama3" "q.json")).
Proof.
  apply (C6_quantize_resolution_runs sample.world _ "q.json" "{}" (PDict []));
    reflexivity.
Defined.

(** ** The precondition checker, [cli.check_args] *)

Ltac run_code :=
  unfold getattr, Path, bind, emit, raise, ret in *;
  repeat (first [ progress simpl in * | case_match ]);
  simplify_eq.

Ltac in_trace H :=
  repeat first
    [ apply elem_of_nil in H; destruct H
    | apply elem_of_cons in H; destruct H as [-> | H] ].

(** The checker emits nothing but its own entry, an artifact test and an
    acquisition. *)
Lemma check_args_events w (args : gmap string pyval) name ev :
  ev ∈ trace (cli.check_args w args name) ->
  is_check_args ev || is_artifact_test ev || is_acquisition ev = true.
Proof.
  unfold cli.check_args, getattr. run_code; intros Hev; in_trace Hev; reflexivity.
Qed.

Lemma check_args_skipped w (args : gmap string pyval) name :
  name ∈ ["download"; "list"; "remove"] ->
  cli.check_args w args name = ([EvCheckArgs args name], Ret tt).
Proof.
  intros Hn. unfold cli.check_args. simpl.
  rewrite bool_decide_eq_true_2 by exact Hn. reflexivity.
Qed.

Lemma check_args_acquires w (args : gmap string pyval) name m dir token :
  name ∉ ["download"; "list"; "remove"] ->
  args !! "model" = Some (PStr m) -> m <> "" ->
  args !! "model_directory" = Some dir ->
  args !! "hf_token" = Some token ->
  is_model_downloaded w (PStr m) dir = false ->
  trace (cli.check_args w args name) =
  [EvCheckArgs args name; EvIsModelDownloaded (PStr m) dir;
   EvDownloadAndConvert (PStr m) dir token].
Proof.
  intros Hn Hm Hne Hd Ht Hw. unfold cli.check_args, getattr. simpl.
  rewrite bool_decide_eq_false_2 by exact Hn.
  rewrite Hm, Hd, Ht. simpl.
  assert (String.eqb m "" = false) as -> by (by apply String.eqb_neq).
  simpl. rewrite Hw. simpl.
  destruct (download_and_convert w _ _ _); reflexivity.
Qed.

Lemma check_args_returns w (args : gmap string pyval) name m dir token :
  args !! "model" = Some (PStr m) ->
  args !! "model_directory" = Some dir ->
  args !! "hf_token" = Some token ->
  is_model_downloaded w (PStr m) dir = true \/
  download_and_convert w (PStr m) dir token = true ->
  outcome (cli.check_args w args name) = Ret tt.
Proof.
  intros Hm Hd Ht Hw. unfold cli.check_args, getattr. simpl.
  rewrite Hm, Hd, Ht. run_code; try reflexivity; destruct Hw; congruence.
Qed.

(** ** The router *)

Lemma call_handler_trace w h (args : gmap string pyval) :
  trace (torchchat.call_handler w h args) = [EvHandler h args].
Proof.
  unfold torchchat.call_handler. simpl.
  destruct (handler_returns w h args); reflexivity.
Qed.

Lemma browser_launch_events w fuel argv ev :
  ev ∈ trace (torchchat.browser_launch w fuel argv) -> is_child_process ev = true.
Proof.
  unfold torchchat.browser_launch. run_code; intros Hev; in_trace Hev; reflexivity.
Qed.

(** Every call the checker records received the checker's own namespace. *)
Lemma check_args_event_args w (args a : gmap string pyval) name ev :
  ev ∈ trace (cli.check_args w args name) -> event_args ev = Some a -> a = args.
Proof.
  unfold cli.check_args. run_code; intros Hev Ha; in_trace Hev;
    simpl in Ha; congruence.
Qed.

Lemma browser_launch_scanned w fuel argv port argv' :
  torchchat.scan_port fuel 2 (torchchat.PortInt 5000) argv = Ret (port, argv') ->
  trace (torchchat.browser_launch w fuel argv)
  = [EvSubprocessRun (torchchat.flask_command port argv')].
Proof.
  intros Hs. unfold torchchat.browser_launch. rewrite Hs. simpl.
  destruct (subprocess_run w _); reflexivity.
Qed.

Lemma browser_launch_spins w fuel argv :
  torchchat.scan_port fuel 2 (torchchat.PortInt 5000) argv = OutOfFuel ->
  torchchat.browser_launch w fuel argv = ([], OutOfFuel).
Proof.
  intros Hs. unfold torchchat.browser_launch. rewrite Hs. reflexivity.
Qed.

(** From here on the three are used through the lemmas above. *)
Opaque cli.check_args torchchat.call_handler torchchat.browser_launch.

Ltac by_command c :=
  repeat match goal with
         | |- context [if eq_str c ?s then _ else _] => destruct (eq_str c s) eqn:?
         end.

(** The router seeds nothing. *)
Lemma dispatch_events w fuel argv (args : gmap string pyval) ev :
  ev ∈ trace (torchchat.dispatch w fuel argv args) ->
  is_seeding ev = false.
Proof.
  unfold torchchat.dispatch. rewrite trace_bind. unfold getattr.
  destruct (args !! "command") as [c |]; simpl; [| intros Hev; in_trace Hev].
  by_command c; rewrite ?trace_bind, ?call_handler_trace;
    intros Hev; repeat (apply elem_of_app in Hev as [Hev | Hev]);
    try (apply check_args_events in Hev; by destruct ev);
    try (destruct (outcome _); in_trace Hev; reflexivity);
    try (in_trace Hev; reflexivity).
  destruct (outcome _); [| in_trace Hev..].
  apply browser_launch_events in Hev. by destruct ev.
Qed.

(** The run from the parsed namespace: post-processing, then the logging
    set-up, then the router on the post-processed namespace. *)
Lemma run_trace w fuel argv (args : gmap string pyval) :
  trace (torchchat.run w fuel argv args) =
  (trace (cli.arg_init w args) ++
   match outcome (cli.arg_init w args) with
   | Ret args' =>
     match args' !! "verbose" with
     | Some v => EvBasicConfig (truthy v) :: trace (torchchat.dispatch w fuel argv args')
     | None => []
     end
   | _ => []
   end)%list.
Proof.
  unfold torchchat.run. rewrite trace_bind. f_equal.
  destruct (outcome (cli.arg_init w args)) as [args' | e |]; try reflexivity.
  rewrite trace_bind. unfold getattr.
  destruct (args' !! "verbose") as [v |]; [| reflexivity].
  simpl. destruct (torchchat.dispatch w fuel argv args'); reflexivity.
Qed.

(** Whatever happens, the post-processor emits what its seeding step emits,
    or nothing when quantization resolution raised. *)
Lemma arg_init_trace_cases w (args : gmap string pyval) :
  trace (cli.arg_init w args) = trace (cli.apply_seed w args) \/
  trace (cli.arg_init w args) = [].
Proof.
  rewrite arg_init_trace_resolved.
  destruct (outcome (cli.resolve_quantize w args)); auto.
Qed.

Lemma run_after_init_no_seeding w fuel argv (args : gmap string pyval) :
  occurrences is_seeding
    match outcome (cli.arg_init w args) with
    | Ret args' =>
      match args' !! "verbose" with
      | Some v => EvBasicConfig (truthy v) :: trace (torchchat.dispatch w fuel argv args')
      | None => []
      end
    | _ => []
    end = 0.
Proof.
  apply occurrences_none. intros ev Hev.
  destruct (outcome (cli.arg_init w args)) as [args' | e |]; [| in_trace Hev..].
  destruct (args' !! "verbose") as [v |]; [| in_trace Hev].
  apply elem_of_cons in Hev as [-> | Hev]; [reflexivity |].
  by apply dispatch_events in Hev.
Qed.

(** A run from a namespace with a seed other than 0: either quantization
    resolution did not return and the run emitted nothing, or the seeding is
    the first event and the only one of its kind. *)
Lemma run_seed_shape w fuel argv (args : gmap string pyval) z :
  args !! "seed" = Some (PInt z) -> z <> 0%Z ->
  trace (torchchat.run w fuel argv args) = [] \/
  exists after,
    trace (torchchat.run w fuel argv args) = EvManualSeed (PInt z) :: after /\
    occurrences is_seeding after = 0.
Proof.
  intros Hs Hz. rewrite run_trace.
  pose proof (run_after_init_no_seeding w fuel argv args) as Hafter.
  rewrite arg_init_trace_resolved.
  destruct (outcome (cli.resolve_quantize w args)) as [args' | e |] eqn:Hres.
  - right. rewrite apply_seed_trace, Hs.
    simpl. rewrite (proj2 (Z.eqb_neq z 0) Hz). simpl.
    eexists. split; [reflexivity | exact Hafter].
  - left. rewrite arg_init_outcome, Hres. reflexivity.
  - left. rewrite arg_init_outcome, Hres. reflexivity.
Qed.

(** C7. Seeding of the global random-number state. When the namespace holds
    a seed other than 0, [torch.manual_seed] is called at most once in the
    run; whenever a handler or the child process is started, it has been
    called before, exactly once and with that seed; and when the
    post-processor returns, the call is the first event of the run, before
    the logging set-up and the router. When the seed is 0, [None] or absent,
    it is not called at all, whatever else the run does. *)
Theorem C7_seed_applied_once (w : World) (fuel : nat) (argv : list string)
    (args : gmap string pyval) :
  (forall z,
      args !! "seed" = Some (PInt z) -> z <> 0%Z ->
      occurrences is_seeding (trace (torchchat.run w fuel argv args)) <= 1 /\
      (forall before ev after,
          trace (torchchat.run w fuel argv args) = before ++ ev :: after ->
          is_launch ev = true ->
          List.filter is_seeding before = [EvManualSeed (PInt z)]) /\
      (forall args',
          outcome (cli.arg_init w args) = Ret args' ->
          exists after,
            trace (torchchat.run w fuel argv args) = EvManualSeed (PInt z) :: after /\
            occurrences is_seeding after = 0)) /\
  (args !! "seed" = Some (PInt 0) \/ args !! "seed" = Some PNone \/
   args !! "seed" = None ->
   occurrences is_seeding (trace (torchchat.run w fuel argv args)) = 0).
Proof.
  split.
  - intros z Hs Hz.
    destruct (run_seed_shape w fuel argv args z Hs Hz) as [Hnil | (rest & Htr & Hrest)].
    + rewrite Hnil. split; [unfold occurrences; simpl; lia |]. split.
      * intros before ev after Heq. by destruct before.
      * intros args' Hinit. rewrite run_trace, Hinit in Hnil.
        rewrite (arg_init_trace w args args' Hinit), apply_seed_trace, Hs in Hnil.
        simpl in Hnil. rewrite (proj2 (Z.eqb_neq z 0) Hz) in Hnil. discriminate.
    + rewrite Htr. split; [| split].
      * change (EvManualSeed (PInt z) :: rest) with ([EvManualSeed (PInt z)] ++ rest).
        rewrite occurrences_app, Hrest. unfold occurrences. simpl. lia.
      * intros before ev after Heq Hev.
        destruct before as [| b before]; simpl in Heq.
        { injection Heq as <- _. discriminate. }
        injection Heq as <- Heq. simpl. f_equal. apply occurrences_filter.
        rewrite Heq, occurrences_app in Hrest. lia.
      * intros args' _. by exists rest.
  - intros Hs. rewrite run_trace, occurrences_app, run_after_init_no_seeding.
    destruct (arg_init_trace_cases w args) as [-> | ->]; [| reflexivity].
    rewrite apply_seed_trace.
    destruct Hs as [-> | [-> | ->]]; reflexivity.
Qed.

Lemma C7_seed_applied_once_witness :
  (exists after,
      trace (torchchat.run sample.world 8 (sample.argv ["generate"; "llama3"; "--seed"; "7"])
               (sample.seeded "generate" "llama3" 7))
      = EvManualSeed (PInt 7) :: after /\
      occurrences is_seeding after = 0) /\
  occurrences is_seeding
    (trace (torchchat.run sample.world 8 (sample.argv ["generate"; "llama3"; "--seed"; "0"])
              (sample.seeded "generate" "llama3" 0))) = 0.
Proof.
  split.
  - apply (proj2 (proj2 (proj1 (C7_seed_applied_once sample.world 8
                                  (sample.argv ["generate"; "llama3"; "--seed"; "7"])
                                  (sample.seeded "generate" "llama3" 7))
                           7%Z eq_refl ltac:(lia)))
             (sample.seeded "generate" "llama3" 7)).
    reflexivity.
  - apply (proj2 (C7_seed_applied_once sample.world 8 _ _)). left. reflexivity.
Defined.

(** A run whose post-processing raises ends there, with what the
    post-processor did: the logging set-up and the router are not reached. *)
Lemma run_post_processing_raises w fuel argv (args : gmap string pyval) e :
  outcome (cli.arg_init w args) = Raise e ->
  torchchat.run w fuel argv args = (trace (cli.arg_init w args), Raise e).
Proof.
  intros H. unfold torchchat.run.
  destruct (cli.arg_init w args) as [t r]. simpl in *. subst. reflexivity.
Qed.

Lemma bind_ret_l {A B} (a : A) (k : A -> M B) : bind (ret a) k = k a.
Proof. unfold bind, ret. destruct (k a). reflexivity. Qed.

Lemma dispatch_command w fuel argv (args : gmap string pyval) cmd :
  args !! "command" = Some (PStr cmd) ->
  torchchat.dispatch w fuel argv args =
  if bool_decide (cmd ∈ ["chat"; "generate"; "export"]) then
    cli.check_args w (torchchat.forced_flags cmd args) cmd ;;
    torchchat.call_handler w (torchchat.model_handler cmd) (torchchat.forced_flags cmd args)
  else if bool_decide (cmd = "browser") then
    cli.check_args w (torchchat.forced_flags cmd args) cmd ;;
    torchchat.browser_launch w fuel argv
  else if bool_decide (cmd ∈ ["download"; "list"; "remove"]) then
    cli.check_args w args cmd ;;
    torchchat.call_handler w (torchchat.management_handler cmd) args
  else if bool_decide (cmd = "eval") then
    torchchat.call_handler w eval_main args
  else emit EvPrintHelp.
Proof.
  intros Hc. unfold torchchat.dispatch, getattr. rewrite Hc, bind_ret_l.
  unfold eq_str, torchchat.forced_flags, torchchat.model_handler,
    torchchat.management_handler.
  repeat match goal with
         | |- context [String.eqb cmd ?s] =>
           destruct (String.eqb_spec cmd s) as [-> | ?]; [reflexivity |]
         end.
  repeat (rewrite bool_decide_eq_false_2;
          [| try congruence;
             rewrite ?elem_of_cons, elem_of_nil; intuition congruence]).
  reflexivity.
Qed.

Lemma forced_flags_frame cmd (args : gmap string pyval) k :
  k <> "chat" -> k <> "gui" -> torchchat.forced_flags cmd args !! k = args !! k.
Proof.
  intros Hc Hg. unfold torchchat.forced_flags.
  repeat case_match; rewrite ?lookup_insert_ne; auto.
Qed.

Lemma seeding_only_no (kind : event -> bool) (tr : list event) :
  (forall seed, kind (EvManualSeed seed) = false) ->
  (forall ev, ev ∈ tr -> is_seeding ev = true) ->
  occurrences kind tr = 0.
Proof.
  intros Hk H. apply occurrences_none. intros ev Hev.
  specialize (H ev Hev). destruct ev; try discriminate. apply Hk.
Qed.

Lemma arg_init_events w (args : gmap string pyval) ev :
  ev ∈ trace (cli.arg_init w args) -> is_seeding ev = true.
Proof.
  destruct (arg_init_trace_cases w args) as [-> | ->]; [| intros H; in_trace H].
  rewrite apply_seed_trace. intros H.
  destruct (args !! "seed") as [s |]; [destruct (truthy s) |]; in_trace H; reflexivity.
Qed.

(** The router on a namespace that names a model whose artifacts are absent,
    for a subcommand that needs them: the checker's entry, the artifact test
    and the acquisition, and after them the handler or the child process. *)
Lemma dispatch_acquires w fuel argv (args : gmap string pyval) cmd m dir token :
  cmd ∈ ["chat"; "browser"; "generate"; "export"] ->
  args !! "command" = Some (PStr cmd) ->
  args !! "model" = Some (PStr m) -> m <> "" ->
  args !! "model_directory" = Some dir ->
  args !! "hf_token" = Some token ->
  is_model_downloaded w (PStr m) dir = false ->
  exists after,
    trace (torchchat.dispatch w fuel argv args)
    = [EvCheckArgs (torchchat.forced_flags cmd args) cmd;
       EvIsModelDownloaded (PStr m) dir;
       EvDownloadAndConvert (PStr m) dir token] ++ after /\
    occurrences is_acquisition after = 0 /\
    (download_and_convert w (PStr m) dir token = true -> cmd <> "browser" ->
     after = [EvHandler (torchchat.model_handler cmd) (torchchat.forced_flags cmd args)]).
Proof.
  intros Hcmd Hc Hm Hne Hd Ht Hw.
  rewrite (dispatch_command w fuel argv args cmd Hc).
  set (a2 := torchchat.forced_flags cmd args).
  assert (Hattr : a2 !! "model" = Some (PStr m) /\
                  a2 !! "model_directory" = Some dir /\
                  a2 !! "hf_token" = Some token)
    by (unfold a2; rewrite !forced_flags_frame by done; done).
  destruct Hattr as (Hm2 & Hd2 & Ht2).
  assert (Hchk : trace (cli.check_args w a2 cmd) =
                 [EvCheckArgs a2 cmd; EvIsModelDownloaded (PStr m) dir;
                  EvDownloadAndConvert (PStr m) dir token]).
  { apply check_args_acquires; auto.
    rewrite !elem_of_cons, elem_of_nil. in_trace Hcmd; intuition discriminate. }
  assert (Hret : download_and_convert w (PStr m) dir token = true ->
                 outcome (cli.check_args w a2 cmd) = Ret tt)
    by (intros Hdl; apply (check_args_returns w a2 cmd m dir token); auto).
  in_trace Hcmd; simpl bool_decide; cbv iota; rewrite trace_bind, Hchk;
    eexists; (split; [reflexivity |]); split.
  all: try (intros Hdl Hnb; rewrite (Hret Hdl), call_handler_trace; reflexivity).
  all: try (intros Hdl Hnb; congruence).
  all: destruct (outcome (cli.check_args w a2 _)); try reflexivity;
    rewrite ?call_handler_trace; try reflexivity.
  apply occurrences_none. intros ev Hev.
  apply browser_launch_events in Hev. by destruct ev.
Qed.

(** The whole run from a parsed namespace of that kind, when post-processing
    returns. *)
Lemma run_acquires w fuel argv (parsed args : gmap string pyval) cmd m dir token v :
  cmd ∈ ["chat"; "browser"; "generate"; "export"] ->
  parsed !! "command" = Some (PStr cmd) ->
  parsed !! "model" = Some (PStr m) -> m <> "" ->
  parsed !! "model_directory" = Some dir ->
  parsed !! "hf_token" = Some token ->
  is_model_downloaded w (PStr m) dir = false ->
  outcome (cli.arg_init w parsed) = Ret args ->
  parsed !! "verbose" = Some v ->
  exists after,
    trace (torchchat.run w fuel argv parsed)
    = (trace (cli.arg_init w parsed) ++
       [EvBasicConfig (truthy v);
        EvCheckArgs (torchchat.forced_flags cmd args) cmd;
        EvIsModelDownloaded (PStr m) dir]) ++
      EvDownloadAndConvert (PStr m) dir token :: after /\
    occurrences is_acquisition after = 0 /\
    (download_and_convert w (PStr m) dir token = true -> cmd <> "browser" ->
     after = [EvHandler (torchchat.model_handler cmd) (torchchat.forced_flags cmd args)]).
Proof.
  intros Hcmd Hc Hm Hne Hd Ht Hw Hinit Hv.
  assert (Hf : forall k, k <> "quantize" -> args !! k = parsed !! k)
    by (intros k; by apply (arg_init_frame w)).
  destruct (dispatch_acquires w fuel argv args cmd m dir token)
    as (after & Htr & Hacq & Hafter); rewrite ?Hf by done; auto.
  exists after. rewrite run_trace, Hinit, Hf, Hv, Htr, <- app_assoc by done.
  auto.
Qed.

Lemma arg_init_no w (args : gmap string pyval) (kind : event -> bool) :
  (forall seed, kind (EvManualSeed seed) = false) ->
  occurrences kind (trace (cli.arg_init w args)) = 0.
Proof. intros Hk. apply seeding_only_no; [exact Hk | apply arg_init_events]. Qed.

(** Either such a run ends before the router, with no acquisition and
    nothing started, or its trace splits around the single acquisition. *)
Lemma run_acquires_shape w fuel argv (parsed : gmap string pyval) cmd m dir token :
  cmd ∈ ["chat"; "browser"; "generate"; "export"] ->
  parsed !! "command" = Some (PStr cmd) ->
  parsed !! "model" = Some (PStr m) -> m <> "" ->
  parsed !! "model_directory" = Some dir ->
  parsed !! "hf_token" = Some token ->
  is_model_downloaded w (PStr m) dir = false ->
  (occurrences is_launch (trace (torchchat.run w fuel argv parsed)) = 0 /\
   occurrences is_acquisition (trace (torchchat.run w fuel argv parsed)) = 0) \/
  exists pre after,
    trace (torchchat.run w fuel argv parsed)
    = pre ++ EvDownloadAndConvert (PStr m) dir token :: after /\
    occurrences is_launch pre = 0 /\
    occurrences is_acquisition pre = 0 /\
    occurrences is_acquisition after = 0.
Proof.
  intros Hcmd Hc Hm Hne Hd Ht Hw.
  destruct (outcome (cli.arg_init w parsed)) as [args | e |] eqn:Hinit;
    [destruct (parsed !! "verbose") as [v |] eqn:Hv |..].
  - right.
    destruct (run_acquires w fuel argv parsed args cmd m dir token v)
      as (after & Htr & Hacq & _); auto.
    eexists _, after. split; [exact Htr |].
    rewrite !occurrences_app, !arg_init_no by done. auto.
  - left. rewrite run_trace, Hinit.
    rewrite (arg_init_frame w parsed args "verbose" Hinit), Hv by done.
    rewrite app_nil_r, !arg_init_no by done. auto.
  - left. rewrite run_trace, Hinit, app_nil_r, !arg_init_no by done. auto.
  - left. rewrite run_trace, Hinit, app_nil_r, !arg_init_no by done. auto.
Qed.

(** C1. Acquisition before dispatch. For [chat], [browser], [generate] and
    [export], when the parsed namespace names a model (a non-empty string)
    whose artifacts [is_model_downloaded] reports absent, a run calls
    [download_and_convert] at most once; whenever a handler or the child
    process is started, the call has been made before, exactly once, with the
    model, the artifact directory and the token of the namespace, and is not
    made again; and when post-processing returns, the call is made exactly
    once, followed for the in-process subcommands by the handler, provided the
    acquisition returns. The checkpoint path plays no part. *)
Theorem C1_acquisition_once_before_handler (w : World) (fuel : nat)
    (argv : list string) (parsed : gmap string pyval)
    (cmd m : string) (dir token : pyval) :
  cmd ∈ ["chat"; "browser"; "generate"; "export"] ->
  parsed !! "command" = Some (PStr cmd) ->
  parsed !! "model" = Some (PStr m) -> m <> "" ->
  parsed !! "model_directory" = Some dir ->
  parsed !! "hf_token" = Some token ->
  is_model_downloaded w (PStr m) dir = false ->
  occurrences is_acquisition (trace (torchchat.run w fuel argv parsed)) <= 1 /\
  (forall before ev after,
     trace (torchchat.run w fuel argv parsed) = before ++ ev :: after ->
     is_launch ev = true ->
     List.filter is_acquisition before = [EvDownloadAndConvert (PStr m) dir token] /\
     occurrences is_acquisition after = 0) /\
  (forall args,
     outcome (cli.arg_init w parsed) = Ret args ->
     is_Some (parsed !! "verbose") ->
     List.filter is_acquisition (trace (torchchat.run w fuel argv parsed))
     = [EvDownloadAndConvert (PStr m) dir token] /\
     (download_and_convert w (PStr m) dir token = true -> cmd <> "browser" ->
      EvHandler (torchchat.model_handler cmd) (torchchat.forced_flags cmd args)
      ∈ trace (torchchat.run w fuel argv parsed))).
Proof.
  intros Hcmd Hc Hm Hne Hd Ht Hw. split; [| split].
  - destruct (run_acquires_shape w fuel argv parsed cmd m dir token)
      as [[_ H0] | (pre & aft & -> & _ & Hpre & Haft)]; auto; [lia |].
    change (?e :: aft) with ([e] ++ aft).
    rewrite !occurrences_app, Hpre, Haft. unfold occurrences. simpl. lia.
  - intros before ev after Heq Hev.
    destruct (run_acquires_shape w fuel argv parsed cmd m dir token)
      as [[H0 _] | (pre & aft & Htr & Hl & Hpre & Haft)]; auto.
    + rewrite Heq in H0. apply occurrences_none with (ev := ev) in H0;
        [congruence |]. apply elem_of_app. right. apply list_elem_of_here.
    + rewrite Htr in Heq.
      destruct (split_after_prefix is_launch
                  (pre ++ [EvDownloadAndConvert (PStr m) dir token]) aft before after ev)
        as (mid & -> & Hmid); auto.
      { rewrite <- app_assoc. exact Heq. }
      { rewrite occurrences_app, Hl. reflexivity. }
      rewrite Hmid, !occurrences_app in Haft.
      change (ev :: after) with ([ev] ++ after) in Haft.
      rewrite occurrences_app in Haft.
      split; [| lia].
      rewrite !List.filter_app, (occurrences_filter _ _ Hpre),
        (occurrences_filter _ mid) by lia.
      reflexivity.
  - intros args Hinit [v Hv].
    destruct (run_acquires w fuel argv parsed args cmd m dir token v)
      as (after & Htr & Hacq & Hafter); auto.
    rewrite Htr. split.
    + rewrite !List.filter_app. simpl.
      rewrite (occurrences_filter _ _ (arg_init_no w parsed is_acquisition (fun _ => eq_refl))).
      rewrite (occurrences_filter _ _ Hacq). reflexivity.
    + intros Hdl Hnb. rewrite (Hafter Hdl Hnb).
      apply elem_of_app. right. apply list_elem_of_further, list_elem_of_here.
Qed.

Lemma C1_acquisition_once_before_handler_witness :
  List.filter is_acquisition
    (trace (torchchat.run sample.world 8 (sample.argv ["chat"; "llama3"])
              (sample.named "chat" "llama3")))
  = [EvDownloadAndConvert (PStr "llama3") (PPath ".model-artifacts") PNone] /\
  (download_and_convert sample.world (PStr "llama3") (PPath ".model-artifacts") PNone = true ->
   "chat" <> "browser" ->
   EvHandler (torchchat.model_handler "chat")
     (torchchat.forced_flags "chat" (sample.named "chat" "llama3"))
   ∈ trace (torchchat.run sample.world 8 (sample.argv ["chat"; "llama3"])
              (sample.named "chat" "llama3"))).
Proof.
  apply (proj2 (proj2 (C1_acquisition_once_before_handler sample.world 8
                         (sample.argv ["chat"; "llama3"]) (sample.named "chat" "llama3")
                         "chat" "llama3" (PPath ".model-artifacts") PNone
                         (list_elem_of_here _ _) eq_refl eq_refl
                         ltac:(discriminate) eq_refl eq_refl eq_refl))
           (sample.named "chat" "llama3")).
  - reflexivity.
  - exists (PBool false). reflexivity.
Defined.

(** The part of a run that follows post-processing has no event of a kind
    the router does not emit on the post-processed namespace. *)
Lemma run_occurrences w fuel argv (args : gmap string pyval) kind :
  (forall seed, kind (EvManualSeed seed) = false) ->
  (forall debug, kind (EvBasicConfig debug) = false) ->
  (forall args', outcome (cli.arg_init w args) = Ret args' ->
                 occurrences kind (trace (torchchat.dispatch w fuel argv args')) = 0) ->
  occurrences kind (trace (torchchat.run w fuel argv args)) = 0.
Proof.
  intros Hseed Hlog Hd. rewrite run_trace, occurrences_app.
  rewrite (seeding_only_no kind _ Hseed (arg_init_events w args)).
  destruct (outcome (cli.arg_init w args)) as [args' | e |]; try reflexivity.
  destruct (args' !! "verbose") as [v |]; [| reflexivity].
  change (EvBasicConfig (truthy v) :: ?t) with ([EvBasicConfig (truthy v)] ++ t)%list.
  rewrite occurrences_app, (Hd args' eq_refl).
  unfold occurrences. simpl. rewrite Hlog. reflexivity.
Qed.

Lemma dispatch_management w fuel argv (args : gmap string pyval) cmd :
  cmd ∈ ["download"; "list"; "remove"] ->
  args !! "command" = Some (PStr cmd) ->
  trace (torchchat.dispatch w fuel argv args)
  = [EvCheckArgs args cmd; EvHandler (torchchat.management_handler cmd) args].
Proof.
  intros Hcmd Hc. rewrite (dispatch_command w fuel argv args cmd Hc).
  in_trace Hcmd; simpl bool_decide; cbv iota;
    rewrite trace_bind, check_args_skipped, call_handler_trace;
    try reflexivity; rewrite !elem_of_cons; auto.
Qed.

Lemma dispatch_eval w fuel argv (args : gmap string pyval) :
  args !! "command" = Some (PStr "eval") ->
  trace (torchchat.dispatch w fuel argv args) = [EvHandler eval_main args].
Proof.
  intros Hc. rewrite (dispatch_command w fuel argv args "eval" Hc).
  simpl bool_decide. cbv iota. apply call_handler_trace.
Qed.

(** C3, as stated, fails: [torchchat.py download llama3] enters the
    precondition checker once (torchchat.py:138). *)
Lemma C3_checker_is_entered :
  sample.named "download" "llama3" !! "command" = Some (PStr "download") /\
  occurrences is_check_args
    (trace (torchchat.run sample.world 8 (sample.argv ["download"; "llama3"])
              (sample.named "download" "llama3"))) = 1.
Proof. split; vm_compute; reflexivity. Qed.

(** C3, amended. For [download], [list] and [remove] the router does call
    the precondition checker, with the subcommand's name, and the checker
    returns at once: the router's events are the entry into the checker and
    the call of the subcommand's handler, and the whole run neither tests for
    the presence of artifacts nor calls the acquisition collaborator,
    whatever model the namespace names and whatever the artifact directory
    holds. *)
Theorem C3_management_commands_skip_acquisition (w : World) (fuel : nat)
    (argv : list string) (args : gmap string pyval) (cmd : string) :
  cmd ∈ ["download"; "list"; "remove"] ->
  args !! "command" = Some (PStr cmd) ->
  trace (torchchat.dispatch w fuel argv args)
  = [EvCheckArgs args cmd; EvHandler (torchchat.management_handler cmd) args] /\
  occurrences is_artifact_test (trace (torchchat.run w fuel argv args)) = 0 /\
  occurrences is_acquisition (trace (torchchat.run w fuel argv args)) = 0.
Proof.
  intros Hcmd Hc. split; [by apply dispatch_management |].
  split; apply run_occurrences; auto; intros args' Hinit;
    rewrite (dispatch_management w fuel argv args' cmd Hcmd); try reflexivity;
    rewrite (arg_init_frame w args args' "command" Hinit); done.
Qed.

Lemma C3_management_commands_skip_acquisition_witness :
  trace (torchchat.dispatch sample.world 8 (sample.argv ["download"; "llama3"])
           (sample.named "download" "llama3"))
  = [EvCheckArgs (sample.named "download" "llama3") "download";
     EvHandler (torchchat.management_handler "download") (sample.named "download" "llama3")] /\
  occurrences is_artifact_test
    (trace (torchchat.run sample.world 8 (sample.argv ["download"; "llama3"])
              (sample.named "download" "llama3"))) = 0 /\
  occurrences is_acquisition
    (trace (torchchat.run sample.world 8 (sample.argv ["download"; "llama3"])
              (sample.named "download" "llama3"))) = 0.
Proof.
  apply (C3_management_commands_skip_acquisition sample.world 8 _ _ "download").
  - apply list_elem_of_here.
  - reflexivity.
Defined.

(** C4. The [eval] branch. Whatever the namespace holds and whatever the
    artifact directory holds, the router's only event is the call of the eval
    handler with the post-processed namespace, and the whole run neither
    enters the precondition checker, nor tests for artifacts, nor calls the
    acquisition collaborator. *)
Theorem C4_eval_never_acquires (w : World) (fuel : nat) (argv : list string)
    (args : gmap string pyval) :
  args !! "command" = Some (PStr "eval") ->
  trace (torchchat.dispatch w fuel argv args) = [EvHandler eval_main args] /\
  occurrences is_check_args (trace (torchchat.run w fuel argv args)) = 0 /\
  occurrences is_artifact_test (trace (torchchat.run w fuel argv args)) = 0 /\
  occurrences is_acquisition (trace (torchchat.run w fuel argv args)) = 0.
Proof.
  intros Hc. split; [by apply dispatch_eval |].
  repeat split; apply run_occurrences; auto; intros args' Hinit;
    rewrite (dispatch_eval w fuel argv args'); try reflexivity;
    rewrite (arg_init_frame w args args' "command" Hinit); done.
Qed.

Lemma C4_eval_never_acquires_witness :
  trace (torchchat.dispatch sample.world 8 (sample.argv ["eval"; "llama3"])
           (sample.named "eval" "llama3"))
  = [EvHandler eval_main (sample.named "eval" "llama3")] /\
  occurrences is_check_args
    (trace (torchchat.run sample.world 8 (sample.argv ["eval"; "llama3"])
              (sample.named "eval" "llama3"))) = 0 /\
  occurrences is_artifact_test
    (trace (torchchat.run sample.world 8 (sample.argv ["eval"; "llama3"])
              (sample.named "eval" "llama3"))) = 0 /\
  occurrences is_acquisition
    (trace (torchchat.run sample.world 8 (sample.argv ["eval"; "llama3"])
              (sample.named "eval" "llama3"))) = 0.
Proof.
  apply (C4_eval_never_acquires sample.world 8 _ _). reflexivity.
Defined.

(** The namespace the router hands to the checker and to the handler. *)
Lemma dispatch_event_args w fuel argv (args a : gmap string pyval) cmd ev :
  args !! "command" = Some (PStr cmd) ->
  ev ∈ trace (torchchat.dispatch w fuel argv args) ->
  event_args ev = Some a ->
  a = torchchat.forced_flags cmd args.
Proof.
  intros Hc. rewrite (dispatch_command w fuel argv args cmd Hc).
  assert (Hh : forall h x, ev ∈ trace (torchchat.call_handler w h x) ->
                           event_args ev = Some a -> a = x).
  { intros h x. rewrite call_handler_trace. intros Hev Ha. in_trace Hev.
    simpl in Ha. congruence. }
  assert (Hb : ev ∈ trace (torchchat.browser_launch w fuel argv) ->
               event_args ev = Some a -> a = torchchat.forced_flags cmd args).
  { intros Hev Ha. apply browser_launch_events in Hev. by destruct ev. }
  assert (Hn : cmd <> "chat" -> cmd <> "browser" ->
               torchchat.forced_flags cmd args = args).
  { intros H1 H2. unfold torchchat.forced_flags.
    rewrite (proj2 (String.eqb_neq _ _) H1), (proj2 (String.eqb_neq _ _) H2).
    reflexivity. }
  repeat case_bool_decide; rewrite ?trace_bind; intros Hev Ha;
    repeat (apply elem_of_app in Hev as [Hev | Hev]);
    try (by apply (check_args_event_args w _ a _ ev Hev Ha));
    try (destruct (outcome (cli.check_args _ _ _)); [| in_trace Hev..]);
    try (by apply (Hh _ _ Hev Ha)); try (by apply Hb).
  all: rewrite Hn
    by (try done; intros ->;
        match goal with H : _ ∉ _ |- _ => apply H; apply list_elem_of_here end).
  - by apply (check_args_event_args w _ a _ ev Hev Ha).
  - by apply (Hh _ _ Hev Ha).
  - by apply (Hh _ _ Hev Ha).
  - simpl in Hev. in_trace Hev. discriminate.
Qed.

(** C8, as stated, fails: for [torchchat.py chat llama3] the post-processed
    namespace has [chat] false, and the namespace the handler receives has it
    true (torchchat.py:98). *)
Lemma C8_router_forces_chat :
  outcome (cli.arg_init sample.world (sample.named "chat" "llama3"))
  = Ret (sample.named "chat" "llama3") /\
  sample.named "chat" "llama3" !! "chat" = Some (PBool false) /\
  List.filter is_handler
    (trace (torchchat.run sample.world 8 (sample.argv ["chat"; "llama3"])
              (sample.named "chat" "llama3")))
  = [EvHandler generate_main (<["chat" := PBool true]> (sample.named "chat" "llama3"))].
Proof. repeat split; vm_compute; reflexivity. Qed.

(** C8, amended. After post-processing the router changes the namespace
    only in the [chat] and [browser] branches, where it sets [chat], and for
    [browser] also [gui], to [True] before the precondition check. The
    namespace that the checker and the handler receive equals the
    post-processed one on every other attribute, and on all attributes for
    the other subcommands. *)
Theorem C8_router_frame (w : World) (fuel : nat) (argv : list string)
    (args args' a : gmap string pyval) (cmd : string) (ev : event) :
  outcome (cli.arg_init w args) = Ret args' ->
  args' !! "command" = Some (PStr cmd) ->
  ev ∈ trace (torchchat.run w fuel argv args) ->
  event_args ev = Some a ->
  a = torchchat.forced_flags cmd args' /\
  (forall k, k <> "chat" -> k <> "gui" -> a !! k = args' !! k) /\
  (cmd <> "chat" -> cmd <> "browser" -> a = args').
Proof.
  intros Hinit Hc Hev Ha.
  assert (Heq : a = torchchat.forced_flags cmd args').
  { rewrite run_trace, Hinit in Hev.
    apply elem_of_app in Hev as [Hev | Hev].
    - apply arg_init_events in Hev. by destruct ev.
    - destruct (args' !! "verbose") as [v |]; [| in_trace Hev].
      apply elem_of_cons in Hev as [-> | Hev]; [discriminate |].
      by apply (dispatch_event_args w fuel argv args' a cmd ev). }
  split; [exact Heq |]. subst a. split.
  - intros k. apply forced_flags_frame.
  - intros H1 H2. unfold torchchat.forced_flags.
    rewrite (proj2 (String.eqb_neq _ _) H1), (proj2 (String.eqb_neq _ _) H2).
    reflexivity.
Qed.

Lemma C8_router_frame_witness :
  <["chat" := PBool true]> (sample.named "chat" "llama3")
  = torchchat.forced_flags "chat" (sample.named "chat" "llama3") /\
  (forall k, k <> "chat" -> k <> "gui" ->
             <["chat" := PBool true]> (sample.named "chat" "llama3") !! k
             = sample.named "chat" "llama3" !! k) /\
  ("chat" <> "chat" -> "chat" <> "browser" ->
   <["chat" := PBool true]> (sample.named "chat" "llama3") = sample.named "chat" "llama3").
Proof.
  apply (C8_router_frame sample.world 8 (sample.argv ["chat"; "llama3"])
           (sample.named "chat" "llama3") (sample.named "chat" "llama3")
           (<["chat" := PBool true]> (sample.named "chat" "llama3")) "chat"
           (EvHandler generate_main (<["chat" := PBool true]> (sample.named "chat" "llama3")))).
  - reflexivity.
  - reflexivity.
  - vm_compute. do 4 apply list_elem_of_further. apply list_elem_of_here.
  - reflexivity.
Defined.

(** ** The [--port] scan of the browser branch *)

Lemma scan_port_end fuel i port (argv : list string) :
  length argv <= i -> torchchat.scan_port (S fuel) i port argv = Ret (port, argv).
Proof.
  intros Hi. simpl. rewrite bool_decide_eq_false_2 by lia. reflexivity.
Qed.

Lemma scan_port_next fuel i port (argv : list string) tok :
  argv !! i = Some tok -> tok <> "--port" ->
  torchchat.scan_port (S fuel) i port argv = torchchat.scan_port fuel (i + 1) port argv.
Proof.
  intros Hi Htok. simpl.
  rewrite bool_decide_eq_true_2 by (by eapply lookup_lt_Some).
  rewrite Hi, (proj2 (String.eqb_neq _ _) Htok). reflexivity.
Qed.

(** The state in which the loop neither advances nor leaves. *)
Lemma scan_port_stuck fuel i port (argv : list string) :
  argv !! i = Some "--port" -> length argv = i + 1 ->
  torchchat.scan_port fuel i port argv = OutOfFuel.
Proof.
  intros Hi Hlen. induction fuel as [| fuel IH]; [reflexivity |].
  simpl. rewrite bool_decide_eq_true_2 by lia. rewrite Hi. simpl.
  rewrite bool_decide_eq_false_2 by lia. exact IH.
Qed.

Lemma scan_port_diverges (pre head : list string) fuel port :
  "--port" ∉ pre ->
  torchchat.scan_port fuel (length head) port (head ++ pre ++ ["--port"]) = OutOfFuel.
Proof.
  revert head fuel. induction pre as [| x pre IH]; intros head fuel Hpre.
  - rewrite app_nil_l. apply scan_port_stuck.
    + simpl. by rewrite list_lookup_middle.
    + rewrite length_app. simpl. lia.
  - destruct fuel as [| fuel]; [reflexivity |].
    apply not_elem_of_cons in Hpre as [Hx Hpre].
    rewrite (scan_port_next fuel _ port _ x).
    + replace (length head + 1) with (length (head ++ [x]))
        by (rewrite length_app; reflexivity).
      replace (head ++ (x :: pre) ++ ["--port"]) with ((head ++ [x]) ++ pre ++ ["--port"])
        by (rewrite <- app_assoc; reflexivity).
      by apply IH.
    + simpl. by rewrite list_lookup_middle.
    + congruence.
Qed.

Lemma scan_port_found (pre head post : list string) fuel port v :
  "--port" ∉ pre -> length pre < fuel ->
  torchchat.scan_port fuel (length head) port (head ++ pre ++ "--port" :: v :: post)
  = Ret (torchchat.PortStr v, (head ++ pre ++ post)%list).
Proof.
  revert head fuel. induction pre as [| x pre IH]; intros head fuel Hpre Hfuel.
  - destruct fuel as [| fuel]; [simpl in Hfuel; lia |].
    simpl. rewrite bool_decide_eq_true_2 by (rewrite length_app; simpl; lia).
    rewrite list_lookup_middle by reflexivity. simpl.
    rewrite bool_decide_eq_true_2 by (rewrite length_app; simpl; lia).
    replace (head ++ "--port" :: v :: post) with ((head ++ ["--port"]) ++ v :: post)
      by (rewrite <- app_assoc; reflexivity).
    rewrite list_lookup_middle by (rewrite length_app; reflexivity).
    rewrite <- app_assoc. simpl.
    rewrite take_app_length.
    replace (length head + 2) with (length (head ++ ["--port"; v]))
      by (rewrite length_app; reflexivity).
    replace (head ++ "--port" :: v :: post) with ((head ++ ["--port"; v]) ++ post)
      by (rewrite <- app_assoc; reflexivity).
    rewrite drop_app_length. reflexivity.
  - destruct fuel as [| fuel]; [simpl in Hfuel; lia |].
    apply not_elem_of_cons in Hpre as [Hx Hpre].
    rewrite (scan_port_next fuel _ port _ x).
    + replace (length head + 1) with (length (head ++ [x]))
        by (rewrite length_app; reflexivity).
      replace (head ++ (x :: pre) ++ "--port" :: v :: post)
        with ((head ++ [x]) ++ pre ++ "--port" :: v :: post)
        by (rewrite <- app_assoc; reflexivity).
      rewrite IH by (auto; simpl in Hfuel; lia).
      rewrite <- app_assoc. reflexivity.
    + simpl. by rewrite list_lookup_middle.
    + congruence.
Qed.

Lemma scan_port_absent (pre head : list string) fuel port :
  "--port" ∉ pre -> length pre < fuel ->
  torchchat.scan_port fuel (length head) port (head ++ pre) = Ret (port, (head ++ pre)%list).
Proof.
  revert head fuel. induction pre as [| x pre IH]; intros head fuel Hpre Hfuel.
  - destruct fuel as [| fuel]; [simpl in Hfuel; lia |].
    apply scan_port_end. rewrite app_nil_r. lia.
  - destruct fuel as [| fuel]; [simpl in Hfuel; lia |].
    apply not_elem_of_cons in Hpre as [Hx Hpre].
    rewrite (scan_port_next fuel _ port _ x).
    + replace (length head + 1) with (length (head ++ [x]))
        by (rewrite length_app; reflexivity).
      replace (head ++ x :: pre) with ((head ++ [x]) ++ pre)
        by (rewrite <- app_assoc; reflexivity).
      apply IH; auto. simpl in Hfuel. lia.
    + simpl. by rewrite list_lookup_middle.
    + congruence.
Qed.

(** A tail that is not empty fixes the length of the two tokens before it. *)
Lemma drop_2_split (argv tail : list string) :
  drop 2 argv = tail -> tail <> [] ->
  argv = (take 2 argv ++ tail)%list /\ length (take 2 argv) = 2.
Proof.
  intros Hd Ht. split; [by rewrite <- Hd, take_drop |].
  destruct argv as [| a [| b argv]]; simpl in *; congruence.
Qed.

Lemma scan_from_2_absent (argv : list string) fuel :
  "--port" ∉ drop 2 argv -> length argv < fuel ->
  torchchat.scan_port fuel 2 (torchchat.PortInt 5000) argv
  = Ret (torchchat.PortInt 5000, argv).
Proof.
  intros Hno Hfuel.
  destruct fuel as [| fuel]; [lia |].
  destruct (decide (length argv <= 2)) as [Hshort | Hlong].
  - by apply scan_port_end.
  - assert (Hlen : length (take 2 argv) = 2) by (rewrite length_take; lia).
    pose proof (scan_port_absent (drop 2 argv) (take 2 argv) (S fuel)
                  (torchchat.PortInt 5000) Hno) as H.
    rewrite Hlen, take_drop in H. apply H. rewrite length_drop. lia.
Qed.

Lemma scan_from_2_found (argv pre post : list string) v fuel :
  drop 2 argv = pre ++ "--port" :: v :: post -> "--port" ∉ pre ->
  length argv < fuel ->
  torchchat.scan_port fuel 2 (torchchat.PortInt 5000) argv
  = Ret (torchchat.PortStr v, take 2 argv ++ pre ++ post).
Proof.
  intros Hd Hpre Hfuel.
  destruct (drop_2_split argv _ Hd) as [Hargv Hlen]; [by destruct pre |].
  pose proof (scan_port_found pre (take 2 argv) post fuel
                (torchchat.PortInt 5000) v Hpre) as H.
  rewrite Hlen, <- Hargv in H. apply H.
  apply (f_equal length) in Hd. rewrite length_drop, length_app in Hd. lia.
Qed.

Lemma scan_from_2_diverges (argv pre : list string) fuel :
  drop 2 argv = pre ++ ["--port"] -> "--port" ∉ pre ->
  torchchat.scan_port fuel 2 (torchchat.PortInt 5000) argv = OutOfFuel.
Proof.
  intros Hd Hpre.
  destruct (drop_2_split argv _ Hd) as [Hargv Hlen]; [by destruct pre |].
  pose proof (scan_port_diverges pre (take 2 argv) fuel
                (torchchat.PortInt 5000) Hpre) as H.
  rewrite Hlen, <- Hargv in H. exact H.
Qed.

(** The three cases of the scan cover every token vector. *)
Lemma first_port_cases (tokens : list string) :
  "--port" ∉ tokens \/
  (exists pre, tokens = pre ++ ["--port"] /\ "--port" ∉ pre) \/
  (exists pre v post, tokens = pre ++ "--port" :: v :: post /\ "--port" ∉ pre).
Proof.
  destruct (decide ("--port" ∈ tokens)) as [Hin | Hno]; [| by left].
  right. apply list_elem_of_split_l in Hin as (pre & tail & -> & Hpre).
  destruct tail as [| v post]; [left | right]; eauto.
Qed.

(** C10. Termination of the [--port] scan, which starts at index 2 of
    [sys.argv] with port 5000. When no token from index 2 on is [--port], the
    loop leaves with the port and the tokens unchanged; when the first
    [--port] from index 2 on is followed by a token, the loop leaves with that
    token as the port and both tokens removed; in either case it leaves
    within as many evaluations of the loop condition as there are tokens.
    When the first [--port] from index 2 on is the last token, the loop never
    leaves, whatever the fuel: a browser run then stops in the loop and
    starts no child process. *)
Theorem C10_port_scan_termination (argv : list string) :
  ("--port" ∉ drop 2 argv ->
   forall fuel, length argv < fuel ->
     torchchat.scan_port fuel 2 (torchchat.PortInt 5000) argv
     = Ret (torchchat.PortInt 5000, argv)) /\
  (forall pre v post,
     drop 2 argv = pre ++ "--port" :: v :: post -> "--port" ∉ pre ->
     forall fuel, length argv < fuel ->
       torchchat.scan_port fuel 2 (torchchat.PortInt 5000) argv
       = Ret (torchchat.PortStr v, take 2 argv ++ pre ++ post)) /\
  (forall pre,
     drop 2 argv = pre ++ ["--port"] -> "--port" ∉ pre ->
     forall fuel,
       torchchat.scan_port fuel 2 (torchchat.PortInt 5000) argv = OutOfFuel /\
       forall w,
         torchchat.browser_launch w fuel argv = ([], OutOfFuel) /\
         forall args : gmap string pyval,
           args !! "command" = Some (PStr "browser") ->
           occurrences is_child_process (trace (torchchat.run w fuel argv args)) = 0).
Proof.
  split; [| split].
  - intros Hno fuel Hfuel. by apply scan_from_2_absent.
  - intros pre v post Hd Hpre fuel Hfuel. by apply scan_from_2_found.
  - intros pre Hd Hpre fuel.
    pose proof (scan_from_2_diverges argv pre fuel Hd Hpre) as Hs.
    split; [exact Hs |]. intros w.
    pose proof (browser_launch_spins w fuel argv Hs) as Hb.
    split; [exact Hb |]. intros args Hc.
    apply run_occurrences; auto. intros args' Hinit.
    rewrite (dispatch_command w fuel argv args' "browser")
      by (rewrite (arg_init_frame w args args' "command" Hinit); done).
    simpl bool_decide. cbv iota. rewrite trace_bind, Hb.
    rewrite occurrences_app.
    replace (occurrences is_child_process
               match outcome (cli.check_args w _ "browser") with
               | Ret _ => trace (@pair (list event) (result unit) [] OutOfFuel)
               | _ => []
               end) with 0
      by (destruct (outcome (cli.check_args w _ "browser")); reflexivity).
    rewrite Nat.add_0_r. apply occurrences_none. intros ev Hev.
    apply check_args_events in Hev. by destruct ev.
Qed.

Lemma C10_port_scan_termination_witness :
  torchchat.scan_port 5 2 (torchchat.PortInt 5000)
    (sample.argv ["browser"; "llama3"; "--port"]) = OutOfFuel /\
  torchchat.scan_port 5 2 (torchchat.PortInt 5000)
    (sample.argv ["browser"; "--port"; "8080"])
  = Ret (torchchat.PortStr "8080", sample.argv ["browser"]) /\
  torchchat.scan_port 5 2 (torchchat.PortInt 5000)
    (sample.argv ["browser"; "llama3"])
  = Ret (torchchat.PortInt 5000, sample.argv ["browser"; "llama3"]).
Proof.
  split; [| split].
  - apply (proj2 (proj2 (C10_port_scan_termination
                          (sample.argv ["browser"; "llama3"; "--port"]))) ["llama3"]).
    + reflexivity.
    + apply not_elem_of_cons. split; [discriminate | apply not_elem_of_nil].
  - apply (proj1 (proj2 (C10_port_scan_termination
                          (sample.argv ["browser"; "--port"; "8080"]))) [] "8080" []).
    + reflexivity.
    + apply not_elem_of_nil.
    + simpl. lia.
  - apply (proj1 (C10_port_scan_termination (sample.argv ["browser"; "llama3"]))).
    + simpl. apply not_elem_of_cons. split; [discriminate | apply not_elem_of_nil].
    + simpl. lia.
Defined.

(** C2. The child process of the browser branch, on a command line that
    holds the word [browser] a second time, as the value of [--prompt]. The
    scan finds no [--port] and leaves [sys.argv] as it is; the comprehension
    at torchchat.py:124 then drops every token equal to [browser], not only
    the subcommand's name, so the child is started with [--prompt] and no
    value for it: the forwarded list is ['--prompt'] and the chat flag. *)
Lemma C2_forwarding_drops_browser_tokens :
  torchchat.scan_port 8 2 (torchchat.PortInt 5000)
    (sample.argv ["browser"; "--prompt"; "browser"])
  = Ret (torchchat.PortInt 5000, sample.argv ["browser"; "--prompt"; "browser"]) /\
  torchchat.args_plus_chat (sample.argv ["browser"; "--prompt"; "browser"])
  = ["'--prompt'"; String "034"%char ("--chat" ++ String "034"%char EmptyString)] /\
  trace (torchchat.browser_launch sample.world 8
           (sample.argv ["browser"; "--prompt"; "browser"]))
  = [EvSubprocessRun
       ["flask"; "--app";
        ("chat_in_browser:create_app('--prompt', "
         ++ String "034"%char ("--chat" ++ String "034"%char EmptyString) ++ ")")%string;
        "run"; "--port"; "5000"]] /\
  List.filter is_child_process
    (trace (torchchat.run sample.world 8
              (sample.argv ["browser"; "--prompt"; "browser"])
              (<["prompt" := PStr "browser"]>
                 (<["command" := PStr "browser"]> cli.default_namespace))))
  = [EvSubprocessRun
       ["flask"; "--app";
        ("chat_in_browser:create_app('--prompt', "
         ++ String "034"%char ("--chat" ++ String "034"%char EmptyString) ++ ")")%string;
        "run"; "--port"; "5000"]].
Proof. repeat split; vm_compute; reflexivity. Qed.

(** X14. The command of the child process. [sys.argv] is the program name
    followed by the command-line tokens, so the scan from index 2 starts
    after the first token. When the first [--port] from there on is followed
    by a token, that token is the port of the child and neither of the two is
    forwarded; without a [--port] the port is 5000 and every token is
    forwarded. The forwarded tokens are the remaining ones except all those
    equal to [browser], each between two single quotes, joined by a comma and
    a space, and after them the flag [--chat] between two double quotes. For
    the tokens [browser --port 8080 --prompt hi] the forwarded list is
    ['--prompt'], ['hi'] and that flag, and the port is 8080. *)
Theorem X14_browser_child_command (w : World) (prog : string) (fuel : nat) :
  (forall sub pre v post,
     "--port" ∉ pre ->
     length (prog :: sub :: pre ++ "--port" :: v :: post) < fuel ->
     trace (torchchat.browser_launch w fuel (prog :: sub :: pre ++ "--port" :: v :: post))
     = [EvSubprocessRun
          ["flask"; "--app";
           ("chat_in_browser:create_app(" ++
            String.concat ", "
              (map (fun s => ("'" ++ s ++ "'")%string)
                 (filter (fun s => s <> "browser") (sub :: pre ++ post))
               ++ [String "034"%char ("--chat" ++ String "034"%char EmptyString)])
            ++ ")")%string;
           "run"; "--port"; v]]) /\
  (forall sub rest,
     "--port" ∉ rest ->
     length (prog :: sub :: rest) < fuel ->
     trace (torchchat.browser_launch w fuel (prog :: sub :: rest))
     = [EvSubprocessRun
          ["flask"; "--app";
           ("chat_in_browser:create_app(" ++
            String.concat ", "
              (map (fun s => ("'" ++ s ++ "'")%string)
                 (filter (fun s => s <> "browser") (sub :: rest))
               ++ [String "034"%char ("--chat" ++ String "034"%char EmptyString)])
            ++ ")")%string;
           "run"; "--port"; "5000"]]) /\
  (6 < fuel ->
   torchchat.scan_port fuel 2 (torchchat.PortInt 5000)
     [prog; "browser"; "--port"; "8080"; "--prompt"; "hi"]
   = Ret (torchchat.PortStr "8080", [prog; "browser"; "--prompt"; "hi"]) /\
   torchchat.args_plus_chat [prog; "browser"; "--prompt"; "hi"]
   = ["'--prompt'"; "'hi'";
      String "034"%char ("--chat" ++ String "034"%char EmptyString)] /\
   trace (torchchat.browser_launch w fuel
            [prog; "browser"; "--port"; "8080"; "--prompt"; "hi"])
   = [EvSubprocessRun
        ["flask"; "--app";
         ("chat_in_browser:create_app('--prompt', 'hi', "
          ++ String "034"%char ("--chat" ++ String "034"%char EmptyString) ++ ")")%string;
         "run"; "--port"; "8080"]]).
Proof.
  split; [| split].
  - intros sub pre v post Hpre Hfuel.
    rewrite (browser_launch_scanned w fuel _ (torchchat.PortStr v)
               (prog :: sub :: pre ++ post)); [reflexivity |].
    by apply (scan_from_2_found (prog :: sub :: pre ++ "--port" :: v :: post) pre post v).
  - intros sub rest Hrest Hfuel.
    rewrite (browser_launch_scanned w fuel _ (torchchat.PortInt 5000)
               (prog :: sub :: rest)); [reflexivity |].
    by apply scan_from_2_absent.
  - intros Hfuel.
    assert (Hs : torchchat.scan_port fuel 2 (torchchat.PortInt 5000)
                   [prog; "browser"; "--port"; "8080"; "--prompt"; "hi"]
                 = Ret (torchchat.PortStr "8080", [prog; "browser"; "--prompt"; "hi"])).
    { apply (scan_from_2_found [prog; "browser"; "--port"; "8080"; "--prompt"; "hi"]
               [] ["--prompt"; "hi"] "8080"); [reflexivity | | simpl; lia].
      apply not_elem_of_nil. }
    split; [exact Hs |]. split; [reflexivity |].
    rewrite (browser_launch_scanned w fuel _ _ _ Hs). reflexivity.
Qed.

Lemma X14_browser_child_command_witness :
  trace (torchchat.browser_launch sample.world 8
           (sample.argv ["browser"; "llama3"; "--port"; "8080"; "--prompt"; "hi"]))
  = [EvSubprocessRun
       ["flask"; "--app";
        ("chat_in_browser:create_app('llama3', '--prompt', 'hi', "
         ++ String "034"%char ("--chat" ++ String "034"%char EmptyString) ++ ")")%string;
        "run"; "--port"; "8080"]] /\
  trace (torchchat.browser_launch sample.world 8
           (sample.argv ["browser"; "llama3"; "--prompt"; "hi"]))
  = [EvSubprocessRun
       ["flask"; "--app";
        ("chat_in_browser:create_app('llama3', '--prompt', 'hi', "
         ++ String "034"%char ("--chat" ++ String "034"%char EmptyString) ++ ")")%string;
        "run"; "--port"; "5000"]] /\
  trace (torchchat.browser_launch sample.world 8
           (sample.argv ["browser"; "--port"; "8080"; "--prompt"; "hi"]))
  = [EvSubprocessRun
       ["flask"; "--app";
        ("chat_in_browser:create_app('--prompt', 'hi', "
         ++ String "034"%char ("--chat" ++ String "034"%char EmptyString) ++ ")")%string;
        "run"; "--port"; "8080"]].
Proof.
  split; [| split].
  - apply (proj1 (X14_browser_child_command sample.world "torchchat.py" 8)
             "browser" ["llama3"] "8080" ["--prompt"; "hi"]).
    + apply not_elem_of_cons. split; [discriminate | apply not_elem_of_nil].
    + simpl. lia.
  - apply (proj1 (proj2 (X14_browser_child_command sample.world "torchchat.py" 8))
             "browser" ["llama3"; "--prompt"; "hi"]).
    + repeat (apply not_elem_of_cons; split; [discriminate |]). apply not_elem_of_nil.
    + simpl. lia.
  - apply (proj2 (proj2 (X14_browser_child_command sample.world "torchchat.py" 8))).
    lia.
Defined.

(** ** Unknown subcommands *)

(** A namespace that comes out of the parser for a first token that is no
    option string carries that token as its command, and the token is a
    registered subcommand. *)
Lemma parse_args_command w prog tok rest t (args : gmap string pyval) :
  String.prefix "-" tok = false ->
  torchchat.parse_args w (prog :: tok :: rest) = (t, Ret args) ->
  tok ∈ torchchat.subcommands /\ args !! "command" = Some (PStr tok).
Proof.
  intros Hopt. unfold torchchat.parse_args. simpl drop. cbv beta iota. rewrite Hopt.
  case_bool_decide as Hin.
  - destruct (parse_subcommand w tok rest) as [ns | code]; simpl; [| discriminate].
    intros [= <- <-]. split; [exact Hin | apply lookup_insert_eq].
  - discriminate.
Qed.

(** The last branch of the router, for a command that is none of the
    registered ones: it prints the help, calls nothing and returns. The parser
    lets no such command through ([parse_args_command]). *)
Lemma dispatch_unknown w fuel argv (args : gmap string pyval) cmd :
  args !! "command" = Some (PStr cmd) -> cmd ∉ torchchat.subcommands ->
  torchchat.dispatch w fuel argv args = ([EvPrintHelp], Ret tt).
Proof.
  intros Hc Hcmd. rewrite (dispatch_command w fuel argv args cmd Hc).
  unfold torchchat.subcommands in Hcmd.
  repeat (rewrite bool_decide_eq_false_2;
          [| try (intros ->); try (intros Hin); apply Hcmd;
             rewrite !elem_of_cons in *; tauto]).
  reflexivity.
Qed.

(** C9. An invocation whose first token is neither an option string nor a
    registered subcommand ends in the parser: the usage and the error are
    printed, the process exits with status 2, and nothing else happens, so no
    handler, no child process and no acquisition. *)
Theorem C9_unknown_subcommand (w : World) (fuel : nat) (prog name : string)
    (rest : list string) :
  String.prefix "-" name = false ->
  name ∉ torchchat.subcommands ->
  torchchat.main w fuel (prog :: name :: rest) = ([EvParserError], Raise (SystemExit 2)) /\
  exit_status (outcome (torchchat.main w fuel (prog :: name :: rest))) = Some 2%Z /\
  occurrences is_launch (trace (torchchat.main w fuel (prog :: name :: rest))) = 0 /\
  occurrences is_acquisition (trace (torchchat.main w fuel (prog :: name :: rest))) = 0.
Proof.
  intros Hopt Hname.
  assert (Hmain : torchchat.main w fuel (prog :: name :: rest)
                  = ([EvParserError], Raise (SystemExit 2))).
  { unfold torchchat.main, torchchat.parse_args. simpl drop. cbv beta iota. rewrite Hopt.
    rewrite bool_decide_eq_false_2 by exact Hname. reflexivity. }
  rewrite Hmain. repeat split.
Qed.

Lemma C9_unknown_subcommand_witness :
  torchchat.main sample.world 8 (sample.argv ["foo"])
  = ([EvParserError], Raise (SystemExit 2)) /\
  exit_status (outcome (torchchat.main sample.world 8 (sample.argv ["foo"]))) = Some 2%Z /\
  occurrences is_launch (trace (torchchat.main sample.world 8 (sample.argv ["foo"]))) = 0 /\
  occurrences is_acquisition (trace (torchchat.main sample.world 8 (sample.argv ["foo"]))) = 0.
Proof.
  apply (C9_unknown_subcommand sample.world 8 "torchchat.py" "foo" []).
  - reflexivity.
  - unfold torchchat.subcommands.
    repeat (apply not_elem_of_cons; split; [discriminate |]). apply not_elem_of_nil.
Defined.

(** * Further properties of the code *)

Transparent cli.check_args torchchat.call_handler torchchat.browser_launch.

(** ** The precondition checker and the acquisition *)

Lemma check_args_no_acquisition w (args : gmap string pyval) name v :
  args !! "model" = Some v ->
  truthy v = false \/
  (exists dir, args !! "model_directory" = Some dir /\
               is_model_downloaded w v dir = true) ->
  occurrences is_acquisition (trace (cli.check_args w args name)) = 0 /\
  outcome (cli.check_args w args name) = Ret tt.
Proof.
  intros Hm Hneed. unfold cli.check_args, getattr. rewrite Hm.
  destruct Hneed as [Hv | (dir & Hd & Hw)].
  - simpl. rewrite Hv. simpl. by destruct (bool_decide _).
  - rewrite Hd. simpl. destruct (bool_decide _); [done |].
    destruct (truthy v); simpl; [| done]. by rewrite Hw.
Qed.

Lemma check_args_no_test w (args : gmap string pyval) name v :
  args !! "model" = Some v -> truthy v = false ->
  occurrences is_artifact_test (trace (cli.check_args w args name)) = 0.
Proof.
  intros Hm Hv. unfold cli.check_args, getattr. rewrite Hm. simpl. rewrite Hv.
  simpl. by destruct (bool_decide _).
Qed.

Lemma check_args_acquisition_fails w (args : gmap string pyval) name m dir token :
  name ∉ ["download"; "list"; "remove"] ->
  args !! "model" = Some (PStr m) -> m <> "" ->
  args !! "model_directory" = Some dir ->
  args !! "hf_token" = Some token ->
  is_model_downloaded w (PStr m) dir = false ->
  download_and_convert w (PStr m) dir token = false ->
  outcome (cli.check_args w args name) = Raise CollaboratorError.
Proof.
  intros Hn Hm Hne Hd Ht Hw Hdl. unfold cli.check_args, getattr. simpl.
  rewrite bool_decide_eq_false_2 by exact Hn.
  rewrite Hm, Hd, Ht. simpl.
  assert (String.eqb m "" = false) as -> by (by apply String.eqb_neq).
  simpl. rewrite Hw. simpl. by rewrite Hdl.
Qed.

Lemma call_handler_outcome w h (args : gmap string pyval) e :
  outcome (torchchat.call_handler w h args) = Raise e -> e = CollaboratorError.
Proof.
  unfold torchchat.call_handler. simpl.
  destruct (handler_returns w h args); simpl; congruence.
Qed.

Opaque cli.check_args torchchat.call_handler.

(** Which call of the checker the router makes, if any. *)
Lemma dispatch_check w fuel argv (args : gmap string pyval) cmd ev :
  args !! "command" = Some (PStr cmd) ->
  ev ∈ trace (torchchat.dispatch w fuel argv args) ->
  is_check_args ev || is_artifact_test ev || is_acquisition ev = true ->
  ev ∈ trace (cli.check_args w (torchchat.forced_flags cmd args) cmd).
Proof.
  intros Hc. rewrite (dispatch_command w fuel argv args cmd Hc).
  assert (Hn : cmd ∉ ["chat"; "generate"; "export"] -> cmd <> "browser" ->
               torchchat.forced_flags cmd args = args).
  { intros H1 H2. unfold torchchat.forced_flags.
    rewrite (proj2 (String.eqb_neq cmd "chat")), (proj2 (String.eqb_neq _ _) H2);
      [reflexivity |].
    intros ->. apply H1, list_elem_of_here. }
  repeat case_bool_decide; rewrite ?trace_bind, ?call_handler_trace;
    intros Hev Hk; repeat (apply elem_of_app in Hev as [Hev | Hev]);
    try exact Hev;
    try (rewrite Hn by done; exact Hev);
    try (destruct (outcome (cli.check_args _ _ _)); in_trace Hev; discriminate);
    try (in_trace Hev; discriminate).
  destruct (outcome (cli.check_args _ _ _)); [| in_trace Hev..].
  apply browser_launch_events in Hev. by destruct ev.
Qed.

(** Without a command that is a string the router at most prints the help. *)
Lemma dispatch_no_command w fuel argv (args : gmap string pyval) ev :
  (forall cmd, args !! "command" <> Some (PStr cmd)) ->
  ev ∈ trace (torchchat.dispatch w fuel argv args) -> ev = EvPrintHelp.
Proof.
  intros Hc. unfold torchchat.dispatch, getattr.
  destruct (args !! "command") as [c |]; [| intros Hev; simpl in Hev; in_trace Hev].
  rewrite bind_ret_l.
  destruct c; try (by destruct (Hc s)); simpl; intros Hev; in_trace Hev; reflexivity.
Qed.

Lemma dispatch_no_acquisition w fuel argv (args : gmap string pyval) v :
  args !! "model" = Some v ->
  truthy v = false \/
  (exists dir, args !! "model_directory" = Some dir /\
               is_model_downloaded w v dir = true) ->
  occurrences is_acquisition (trace (torchchat.dispatch w fuel argv args)) = 0.
Proof.
  intros Hm Hneed. apply occurrences_none. intros ev Hev.
  destruct (is_acquisition ev) eqn:Hk; [exfalso | reflexivity].
  destruct (args !! "command") as [c |] eqn:Hc.
  - destruct c;
      try (apply dispatch_no_command in Hev; [by subst ev | congruence]).
    apply (dispatch_check w fuel argv args s) in Hev;
      [| exact Hc | by rewrite Hk, orb_true_r].
    destruct (check_args_no_acquisition w (torchchat.forced_flags s args) s v)
      as [H0 _].
    + by rewrite forced_flags_frame.
    + destruct Hneed as [Hv | (dir & Hd & Hw)]; [by left | right].
      exists dir. by rewrite forced_flags_frame.
    + apply occurrences_none with (ev := ev) in H0; congruence.
  - apply dispatch_no_command in Hev; [by subst ev | congruence].
Qed.

(** X1. No needless acquisition. Whatever the subcommand, a run from a
    namespace whose model is unnamed ([None] or the empty string) or whose
    artifacts [is_model_downloaded] reports present never calls
    [download_and_convert]; when the model is unnamed it does not even test
    for the artifacts. *)
Theorem X1_no_acquisition_without_need (w : World) (fuel : nat)
    (argv : list string) (args : gmap string pyval) (v : pyval) :
  args !! "model" = Some v ->
  truthy v = false \/
  (exists dir, args !! "model_directory" = Some dir /\
               is_model_downloaded w v dir = true) ->
  occurrences is_acquisition (trace (torchchat.run w fuel argv args)) = 0 /\
  (truthy v = false ->
   occurrences is_artifact_test (trace (torchchat.run w fuel argv args)) = 0).
Proof.
  intros Hm Hneed. split.
  - apply run_occurrences; auto. intros args' Hinit.
    apply (dispatch_no_acquisition w fuel argv args' v).
    + by rewrite (arg_init_frame w args args' "model" Hinit).
    + destruct Hneed as [Hv | (dir & Hd & Hw)]; [by left | right].
      exists dir. by rewrite (arg_init_frame w args args' "model_directory" Hinit).
  - intros Hv. apply run_occurrences; auto. intros args' Hinit.
    apply occurrences_none. intros ev Hev.
    destruct (is_artifact_test ev) eqn:Hk; [exfalso | reflexivity].
    assert (Hm' : args' !! "model" = Some v)
      by (by rewrite (arg_init_frame w args args' "model" Hinit)).
    destruct (args' !! "command") as [c |] eqn:Hc.
    + destruct c;
        try (apply dispatch_no_command in Hev; [by subst ev | congruence]).
      apply (dispatch_check w fuel argv args' s) in Hev;
        [| exact Hc | by rewrite Hk, orb_true_r].
      pose proof (check_args_no_test w (torchchat.forced_flags s args') s v) as H0.
      rewrite forced_flags_frame in H0 by done.
      apply occurrences_none with (ev := ev) in H0; auto. congruence.
    + apply dispatch_no_command in Hev; [by subst ev | congruence].
Qed.

Lemma X1_no_acquisition_without_need_witness :
  occurrences is_acquisition
    (trace (torchchat.run sample.world 8 (sample.argv ["generate"])
              (<["command" := PStr "generate"]> cli.default_namespace))) = 0 /\
  (truthy PNone = false ->
   occurrences is_artifact_test
     (trace (torchchat.run sample.world 8 (sample.argv ["generate"])
               (<["command" := PStr "generate"]> cli.default_namespace))) = 0).
Proof.
  apply (X1_no_acquisition_without_need sample.world 8 _
           (<["command" := PStr "generate"]> cli.default_namespace) PNone).
  - reflexivity.
  - left. reflexivity.
Defined.

Lemma run_outcome w fuel argv (args : gmap string pyval) :
  outcome (torchchat.run w fuel argv args) =
  match outcome (cli.arg_init w args) with
  | Ret args' =>
    match args' !! "verbose" with
    | Some _ => outcome (torchchat.dispatch w fuel argv args')
    | None => Raise (AttributeError "verbose")
    end
  | Raise e => Raise e
  | OutOfFuel => OutOfFuel
  end.
Proof.
  unfold torchchat.run. rewrite outcome_bind.
  destruct (outcome (cli.arg_init w args)) as [args' | e |]; try reflexivity.
  rewrite outcome_bind. unfold getattr.
  destruct (args' !! "verbose") as [v |]; [| reflexivity].
  simpl. destruct (torchchat.dispatch w fuel argv args'); reflexivity.
Qed.

(** X2. A failed acquisition is fatal. For [chat], [browser], [generate] and
    [export], when the namespace names a model whose artifacts are absent and
    [download_and_convert] raises, the run ends with that failure right after
    the call: no handler is called and no child process is started. *)
Theorem X2_acquisition_failure_is_fatal (w : World) (fuel : nat)
    (argv : list string) (parsed args : gmap string pyval)
    (cmd m : string) (dir token : pyval) :
  cmd ∈ ["chat"; "browser"; "generate"; "export"] ->
  parsed !! "command" = Some (PStr cmd) ->
  parsed !! "model" = Some (PStr m) -> m <> "" ->
  parsed !! "model_directory" = Some dir ->
  parsed !! "hf_token" = Some token ->
  is_Some (parsed !! "verbose") ->
  is_model_downloaded w (PStr m) dir = false ->
  download_and_convert w (PStr m) dir token = false ->
  outcome (cli.arg_init w parsed) = Ret args ->
  outcome (torchchat.run w fuel argv parsed) = Raise CollaboratorError /\
  last (trace (torchchat.run w fuel argv parsed))
  = Some (EvDownloadAndConvert (PStr m) dir token) /\
  occurrences is_launch (trace (torchchat.run w fuel argv parsed)) = 0.
Proof.
  intros Hcmd Hc Hm Hne Hd Ht [v Hv] Hw Hdl Hinit.
  assert (Hf : forall k, k <> "quantize" -> args !! k = parsed !! k)
    by (intros k; by apply (arg_init_frame w)).
  set (a2 := torchchat.forced_flags cmd args).
  assert (Hnot : cmd ∉ ["download"; "list"; "remove"]).
  { rewrite !elem_of_cons, elem_of_nil. in_trace Hcmd; intuition discriminate. }
  assert (Hout : outcome (cli.check_args w a2 cmd) = Raise CollaboratorError).
  { apply (check_args_acquisition_fails w a2 cmd m dir token); auto;
      unfold a2; rewrite forced_flags_frame, Hf by done; done. }
  assert (Htr : trace (cli.check_args w a2 cmd) =
                [EvCheckArgs a2 cmd; EvIsModelDownloaded (PStr m) dir;
                 EvDownloadAndConvert (PStr m) dir token]).
  { apply check_args_acquires; auto;
      unfold a2; rewrite forced_flags_frame, Hf by done; done. }
  assert (Hdisp : torchchat.dispatch w fuel argv args
                  = ([EvCheckArgs a2 cmd; EvIsModelDownloaded (PStr m) dir;
                      EvDownloadAndConvert (PStr m) dir token],
                     Raise CollaboratorError)).
  { rewrite (dispatch_command w fuel argv args cmd) by (by rewrite Hf).
    fold a2. unfold trace, outcome in Htr, Hout.
    in_trace Hcmd; simpl bool_decide; cbv iota;
      destruct (cli.check_args w a2 _) as [t r]; simpl in *; subst; reflexivity. }
  rewrite run_outcome, run_trace, Hinit, Hf, Hv, Hdisp by done.
  split; [reflexivity |]. split.
  - rewrite last_app. reflexivity.
  - rewrite occurrences_app, arg_init_no by done. reflexivity.
Qed.

Lemma X2_acquisition_failure_is_fatal_witness :
  outcome (torchchat.run sample.offline_world 8 (sample.argv ["generate"; "llama3"])
             (sample.named "generate" "llama3")) = Raise CollaboratorError /\
  last (trace (torchchat.run sample.offline_world 8 (sample.argv ["generate"; "llama3"])
                 (sample.named "generate" "llama3")))
  = Some (EvDownloadAndConvert (PStr "llama3") (PPath ".model-artifacts") PNone) /\
  occurrences is_launch
    (trace (torchchat.run sample.offline_world 8 (sample.argv ["generate"; "llama3"])
              (sample.named "generate" "llama3"))) = 0.
Proof.
  apply (X2_acquisition_failure_is_fatal sample.offline_world 8 _
           (sample.named "generate" "llama3") (sample.named "generate" "llama3")
           "generate" "llama3" (PPath ".model-artifacts") PNone).
  - do 2 apply list_elem_of_further. apply list_elem_of_here.
  - reflexivity.
  - reflexivity.
  - discriminate.
  - reflexivity.
  - reflexivity.
  - exists (PBool false). reflexivity.
  - reflexivity.
  - reflexivity.
  - reflexivity.
Defined.

(** ** One command, one handler *)

Lemma browser_launch_trace_cases w fuel argv :
  trace (torchchat.browser_launch w fuel argv) = [] \/
  exists command, trace (torchchat.browser_launch w fuel argv) = [EvSubprocessRun command].
Proof.
  unfold torchchat.browser_launch.
  destruct (torchchat.scan_port fuel 2 _ argv) as [[port argv'] | e |];
    [right | by left | by left].
  simpl. destruct (subprocess_run w _); eauto.
Qed.

Opaque torchchat.browser_launch.

(** Whatever is launched is launched by the router, on the post-processed
    namespace. *)
Lemma run_launch_event w fuel argv (args : gmap string pyval) ev :
  ev ∈ trace (torchchat.run w fuel argv args) -> is_launch ev = true ->
  exists args', outcome (cli.arg_init w args) = Ret args' /\
                ev ∈ trace (torchchat.dispatch w fuel argv args').
Proof.
  rewrite run_trace. intros Hev Hk.
  apply elem_of_app in Hev as [Hev | Hev].
  - apply arg_init_events in Hev. by destruct ev.
  - destruct (outcome (cli.arg_init w args)) as [args' | e |]; [| in_trace Hev..].
    destruct (args' !! "verbose") as [v |]; [| in_trace Hev].
    apply elem_of_cons in Hev as [-> | Hev]; [discriminate |]. eauto.
Qed.

Lemma dispatch_launch_count w fuel argv (args : gmap string pyval) :
  occurrences is_launch (trace (torchchat.dispatch w fuel argv args)) <= 1.
Proof.
  assert (Hchk : forall a name,
             occurrences is_launch (trace (cli.check_args w a name)) = 0).
  { intros a name. apply occurrences_none. intros ev Hev.
    apply check_args_events in Hev. by destruct ev. }
  destruct (args !! "command") as [[] |] eqn:Hc;
    try (replace (occurrences _ _) with 0; [lia |]; symmetry;
         apply occurrences_none; intros ev Hev;
         apply dispatch_no_command in Hev; [by subst ev | congruence]).
  rewrite (dispatch_command w fuel argv args s Hc).
  repeat case_bool_decide;
    rewrite ?trace_bind, ?occurrences_app, ?Hchk, ?call_handler_trace;
    try (destruct (outcome (cli.check_args _ _ _))); simpl;
    try (unfold occurrences; simpl; lia).
  destruct (browser_launch_trace_cases w fuel argv) as [-> | [c ->]];
    unfold occurrences; simpl; lia.
Qed.

Lemma dispatch_handler w fuel argv (args a : gmap string pyval) cmd h :
  args !! "command" = Some (PStr cmd) ->
  EvHandler h a ∈ trace (torchchat.dispatch w fuel argv args) ->
  cmd ∈ ["chat"; "generate"] /\ h = generate_main \/
  cmd = "export" /\ h = export_main \/
  cmd = "download" /\ h = download_main \/
  cmd = "list" /\ h = list_main \/
  cmd = "remove" /\ h = remove_main \/
  cmd = "eval" /\ h = eval_main.
Proof.
  intros Hc. rewrite (dispatch_command w fuel argv args cmd Hc).
  repeat case_bool_decide; rewrite ?trace_bind, ?call_handler_trace;
    intros Hev; repeat (apply elem_of_app in Hev as [Hev | Hev]);
    try (apply check_args_events in Hev; discriminate);
    try (destruct (outcome (cli.check_args _ _ _)); [| in_trace Hev..]);
    try (apply browser_launch_events in Hev; discriminate);
    try (simpl in Hev; in_trace Hev; discriminate).
  all: apply list_elem_of_singleton in Hev; try discriminate; injection Hev as -> _.
  all: unfold torchchat.model_handler, torchchat.management_handler.
  all: try match goal with H : _ ∈ _ :: _ |- _ => in_trace H end.
  all: subst; simpl; rewrite ?elem_of_cons; tauto.
Qed.

Lemma dispatch_child_process w fuel argv (args : gmap string pyval) cmd command :
  args !! "command" = Some (PStr cmd) ->
  EvSubprocessRun command ∈ trace (torchchat.dispatch w fuel argv args) ->
  cmd = "browser".
Proof.
  intros Hc. rewrite (dispatch_command w fuel argv args cmd Hc).
  repeat case_bool_decide; rewrite ?trace_bind, ?call_handler_trace;
    intros Hev; repeat (apply elem_of_app in Hev as [Hev | Hev]);
    try (apply check_args_events in Hev; discriminate);
    try (destruct (outcome (cli.check_args _ _ _)); [| in_trace Hev..]);
    try done;
    try (simpl in Hev; in_trace Hev; discriminate);
    try (apply list_elem_of_singleton in Hev; discriminate).
Qed.

(** X3. One command, one handler. A run starts at most one handler or child
    process. The handler it calls is the one of its subcommand: [chat] and
    [generate] share [generate.main], and [export], [download], [list],
    [remove] and [eval] have their own; [browser] calls no handler, and no
    other subcommand starts a child process. *)
Theorem X3_one_command_one_handler (w : World) (fuel : nat) (argv : list string)
    (args : gmap string pyval) (cmd : string) :
  args !! "command" = Some (PStr cmd) ->
  occurrences is_launch (trace (torchchat.run w fuel argv args)) <= 1 /\
  (forall h a,
     EvHandler h a ∈ trace (torchchat.run w fuel argv args) ->
     cmd ∈ ["chat"; "generate"] /\ h = generate_main \/
     cmd = "export" /\ h = export_main \/
     cmd = "download" /\ h = download_main \/
     cmd = "list" /\ h = list_main \/
     cmd = "remove" /\ h = remove_main \/
     cmd = "eval" /\ h = eval_main) /\
  (forall command,
     EvSubprocessRun command ∈ trace (torchchat.run w fuel argv args) ->
     cmd = "browser").
Proof.
  intros Hc. split; [| split].
  - rewrite run_trace, occurrences_app, arg_init_no by done.
    destruct (outcome (cli.arg_init w args)) as [args' | e |];
      try (unfold occurrences; simpl; lia).
    destruct (args' !! "verbose") as [v |]; [| unfold occurrences; simpl; lia].
    change (EvBasicConfig (truthy v) :: ?t) with ([EvBasicConfig (truthy v)] ++ t).
    rewrite occurrences_app.
    pose proof (dispatch_launch_count w fuel argv args'). unfold occurrences at 1.
    simpl. lia.
  - intros h a Hev.
    apply run_launch_event in Hev as (args' & Hinit & Hev); [| reflexivity].
    apply (dispatch_handler w fuel argv args' a cmd h); [| exact Hev].
    by rewrite (arg_init_frame w args args' "command" Hinit).
  - intros command Hev.
    apply run_launch_event in Hev as (args' & Hinit & Hev); [| reflexivity].
    apply (dispatch_child_process w fuel argv args' cmd command); [| exact Hev].
    by rewrite (arg_init_frame w args args' "command" Hinit).
Qed.

Lemma X3_one_command_one_handler_witness :
  occurrences is_launch
    (trace (torchchat.run sample.world 8 (sample.argv ["chat"; "llama3"])
              (sample.named "chat" "llama3"))) <= 1.
Proof.
  apply (X3_one_command_one_handler sample.world 8 (sample.argv ["chat"; "llama3"])
           (sample.named "chat" "llama3") "chat").
  reflexivity.
Defined.

(** ** Post-processing and what the handlers see *)

(** X4. The handlers see the resolved quantization. When [quantize] names
    an existing file whose text is JSON, every call of the precondition
    checker or of a handler in the run receives a namespace whose [quantize]
    is the value parsed from the file, not the path. *)
Theorem X4_handler_receives_resolved_quantize (w : World) (fuel : nat)
    (argv : list string) (args a : gmap string pyval) (cmd q text : string)
    (j : pyval) (ev : event) :
  args !! "command" = Some (PStr cmd) ->
  args !! "quantize" = Some (PStr q) ->
  is_file w q = Some true -> read_text w q = Some text -> json_loads w text = Some j ->
  ev ∈ trace (torchchat.run w fuel argv args) ->
  event_args ev = Some a ->
  a !! "quantize" = Some j.
Proof.
  intros Hc Hq Hf Hr Hj Hev Ha.
  pose proof (resolve_quantize_file w args q text j Hq Hf Hr Hj) as Hres.
  rewrite run_trace in Hev.
  apply elem_of_app in Hev as [Hev | Hev].
  { apply arg_init_events in Hev. by destruct ev. }
  rewrite arg_init_outcome, Hres in Hev.
  destruct (seed_accepted w args); [| in_trace Hev].
  destruct (_ !! "verbose") as [v |]; [| in_trace Hev].
  apply elem_of_cons in Hev as [-> | Hev]; [discriminate |].
  rewrite (dispatch_event_args w fuel argv _ a cmd ev) with (3 := Ha) (2 := Hev)
    by (by rewrite lookup_insert_ne).
  rewrite forced_flags_frame by done. apply lookup_insert_eq.
Qed.

Lemma X4_handler_receives_resolved_quantize_witness :
  <["quantize" := PDict []]> (sample.quantized "generate" "llama3" "q.json") !! "quantize"
  = Some (PDict []).
Proof.
  apply (X4_handler_receives_resolved_quantize sample.world 8
           (sample.argv ["generate"; "llama3"; "--quantize"; "q.json"])
           (sample.quantized "generate" "llama3" "q.json")
           (<["quantize" := PDict []]> (sample.quantized "generate" "llama3" "q.json"))
           "generate" "q.json" "{}" (PDict [])
           (EvHandler generate_main
              (<["quantize" := PDict []]> (sample.quantized "generate" "llama3" "q.json")))).
  - reflexivity.
  - reflexivity.
  - reflexivity.
  - reflexivity.
  - reflexivity.
  - vm_compute. do 4 apply list_elem_of_further. apply list_elem_of_here.
  - reflexivity.
Defined.

(** X5. What post-processing keeps. When the post-processor returns, the
    namespace has the same attributes as before, and every attribute other
    than [quantize] has the value it had. *)
Theorem X5_arg_init_keeps_attributes (w : World) (args args' : gmap string pyval) :
  outcome (cli.arg_init w args) = Ret args' ->
  dom args' = dom args /\
  forall k, k <> "quantize" -> args' !! k = args !! k.
Proof.
  intros Hinit. split; [| intros k; by apply (arg_init_frame w)].
  apply arg_init_returns in Hinit as [Hinit _]. unfold cli.resolve_quantize in Hinit.
  destruct (args !! "quantize") as [q |] eqn:Hq; [| by injection Hinit as <-].
  assert (Hdom : forall j, dom (<["quantize" := j]> args) = dom args).
  { intros j. rewrite dom_insert_L.
    assert (Hin : "quantize" ∈ dom args) by (apply elem_of_dom; eauto).
    apply set_eq. intros x. rewrite elem_of_union, elem_of_singleton.
    split; [intros [-> | Hx]; assumption | by right]. }
  destruct q; simpl in Hinit; try discriminate;
    (destruct (is_file w _) as [[|] |]; simpl in Hinit;
     try discriminate; try (by injection Hinit as <-);
     destruct (read_text w _) as [text |]; simpl in Hinit; try discriminate;
     destruct (json_loads w text); simpl in Hinit; try discriminate;
     injection Hinit as <-; apply Hdom).
Qed.

Lemma X5_arg_init_keeps_attributes_witness :
  dom (<["quantize" := PDict []]> (sample.quantized "generate" "llama3" "q.json"))
  = dom (sample.quantized "generate" "llama3" "q.json") /\
  forall k, k <> "quantize" ->
    <["quantize" := PDict []]> (sample.quantized "generate" "llama3" "q.json") !! k
    = sample.quantized "generate" "llama3" "q.json" !! k.
Proof.
  apply (X5_arg_init_keeps_attributes sample.world). reflexivity.
Defined.

Lemma seed_accepted_spec w (args : gmap string pyval) :
  seed_accepted w args = true <->
  forall seed, args !! "seed" = Some seed -> truthy seed = true ->
               manual_seed w seed = true.
Proof.
  unfold seed_accepted. destruct (args !! "seed") as [s |]; [| by split].
  split.
  - intros H seed [= <-] Ht. rewrite Ht in H. exact H.
  - intros H. destruct (truthy s) eqn:Ht; [| reflexivity]. by apply H.
Qed.

(** When quantization resolution returns. *)
Lemma resolve_quantize_returns w (args : gmap string pyval) :
  (exists args', outcome (cli.resolve_quantize w args) = Ret args') <->
  args !! "quantize" = None \/
  exists p, (args !! "quantize" = Some (PStr p) \/ args !! "quantize" = Some (PPath p)) /\
            (is_file w p = Some false \/
             is_file w p = Some true /\
             exists text j, read_text w p = Some text /\ json_loads w text = Some j).
Proof.
  unfold cli.resolve_quantize. split.
  - intros [args' H].
    destruct (args !! "quantize") as [q |]; [right | by left].
    destruct q; simpl in H; try discriminate;
      (eexists; split; [eauto |];
       destruct (is_file w _) as [[|] |]; simpl in H; try discriminate;
       [right; split; [reflexivity |] | by left];
       destruct (read_text w _) as [text |]; simpl in H; try discriminate;
       destruct (json_loads w text) as [j |] eqn:Hj; simpl in H; try discriminate;
       eauto).
  - intros [-> | (p & [-> | ->] & [Hf | (Hf & text & j & Hr & Hj)])]; simpl;
      rewrite ?Hf, ?Hr, ?Hj; simpl; eauto.
Qed.

(** X6. When post-processing fails. The post-processor returns exactly when
    quantization resolution and the seeding step both do: [quantize] is
    absent, or is a string or path that the file test reports as naming no
    file, or names a file that can be read and holds JSON; and the seed is
    absent, falsy, or taken by the generator. It raises in every other case
    (a [quantize] that is no string, a file test that raises, a file that
    cannot be read, text that is no JSON, a seed the generator refuses). A
    run whose post-processing raises ends with that exception, before the
    logging set-up, the check and the handler: with no event at all when
    quantization resolution raised, with the seeding call as its only event
    when the generator refused the seed. *)
Theorem X6_arg_init_failure (w : World) (fuel : nat) (argv : list string)
    (args : gmap string pyval) :
  ((exists args', outcome (cli.arg_init w args) = Ret args') <->
   (args !! "quantize" = None \/
    exists p, (args !! "quantize" = Some (PStr p) \/ args !! "quantize" = Some (PPath p)) /\
              (is_file w p = Some false \/
               is_file w p = Some true /\
               exists text j, read_text w p = Some text /\ json_loads w text = Some j)) /\
   (forall seed, args !! "seed" = Some seed -> truthy seed = true ->
                 manual_seed w seed = true)) /\
  ((exists e, outcome (cli.arg_init w args) = Raise e) \/
   (exists args', outcome (cli.arg_init w args) = Ret args')) /\
  (forall e, outcome (cli.arg_init w args) = Raise e ->
     (outcome (cli.resolve_quantize w args) = Raise e /\
      torchchat.run w fuel argv args = ([], Raise e)) \/
     (exists seed,
         args !! "seed" = Some seed /\ truthy seed = true /\
         manual_seed w seed = false /\ e = CollaboratorError /\
         torchchat.run w fuel argv args = ([EvManualSeed seed], Raise e))).
Proof.
  split; [| split].
  - rewrite <- resolve_quantize_returns, <- seed_accepted_spec. split.
    + intros [args' H]. apply arg_init_returns in H as [H Hs]. eauto.
    + intros [[args' H] Hs]. exists args'. by rewrite arg_init_accepted.
  - pose proof (arg_init_no_fuel w args) as H.
    destruct (outcome (cli.arg_init w args)); [right | left | done]; eauto.
  - intros e He.
    rewrite (run_post_processing_raises w fuel argv args e He).
    rewrite arg_init_trace_resolved. rewrite arg_init_outcome in He.
    destruct (outcome (cli.resolve_quantize w args)) as [args' | e' |];
      [| left; by injection He as -> | discriminate].
    right. rewrite apply_seed_trace.
    unfold seed_accepted in He.
    destruct (args !! "seed") as [seed |]; [| discriminate].
    destruct (truthy seed) eqn:Ht; [| discriminate].
    destruct (manual_seed w seed) eqn:Hm; [discriminate |].
    injection He as <-. exists seed. repeat split; try reflexivity; assumption.
Qed.

(** ** The launcher *)

(** The loop raises nothing, from any index and with any fuel. *)
Lemma scan_port_no_exception (fuel i : nat) (port : torchchat.port_value)
    (argv : list string) e :
  torchchat.scan_port fuel i port argv <> Raise e.
Proof.
  revert i. induction fuel as [| fuel IH]; intros i; [discriminate |].
  simpl. case_bool_decide as Hi; [| discriminate].
  destruct (lookup_lt_is_Some_2 argv i Hi) as [tok ->].
  destruct (String.eqb tok "--port"); [| apply IH].
  case_bool_decide as Hi1; [| apply IH].
  by destruct (lookup_lt_is_Some_2 argv (i + 1) Hi1) as [value ->].
Qed.

(** X7. The [--port] scan stays within bounds and takes out one pair at
    most. From any index and with any fuel the loop raises no exception (the
    indexing at torchchat.py:113 and 116 is guarded), and when it leaves it
    has either changed nothing, or removed exactly the first [--port] at or
    after the start index together with the token after it, which is the
    port; the tokens before the start index are never touched. *)
Theorem X7_port_scan_in_bounds (fuel i : nat) (port : torchchat.port_value)
    (argv : list string) :
  (forall e, torchchat.scan_port fuel i port argv <> Raise e) /\
  (forall port' argv',
     torchchat.scan_port fuel i port argv = Ret (port', argv') ->
     take i argv' = take i argv /\
     ((port' = port /\ argv' = argv /\ "--port" ∉ drop i argv) \/
      (exists k value,
         (i <= k) /\ ("--port" ∉ take (k - i) (drop i argv)) /\
         argv !! k = Some "--port" /\ argv !! (k + 1) = Some value /\
         port' = torchchat.PortStr value /\
         argv' = take k argv ++ drop (k + 2) argv /\
         length argv = length argv' + 2))).
Proof.
  revert i. induction fuel as [| fuel IH]; intros i; [split; intros; discriminate |].
  simpl. case_bool_decide as Hi.
  - destruct (lookup_lt_is_Some_2 argv i Hi) as [tok Htok]. rewrite Htok.
    destruct (String.eqb_spec tok "--port") as [-> | Hne].
    + case_bool_decide as Hi1.
      * destruct (lookup_lt_is_Some_2 argv (i + 1) Hi1) as [value Hval].
        rewrite Hval. split; [intros e; discriminate |].
        intros port' argv' [= <- <-]. split.
        { rewrite take_app_le by (rewrite length_take; lia).
          rewrite take_take. f_equal. lia. }
        right. exists i, value. replace (i - i) with 0 by lia.
        split; [lia |]. split; [apply not_elem_of_nil |].
        do 4 (split; [done |]).
        rewrite length_app, length_take, length_drop. lia.
      * destruct (IH i) as [IH1 IH2]. split; [exact IH1 |]. exact IH2.
    + destruct (IH (i + 1)) as [IH1 IH2]. split; [exact IH1 |].
      intros port' argv' Hs. destruct (IH2 port' argv' Hs) as [Ht Hcases].
      assert (Hdrop : drop i argv = tok :: drop (i + 1) argv).
      { replace (i + 1) with (S i) by lia. by apply drop_S. }
      split.
      { apply (f_equal (take i)) in Ht. rewrite !take_take in Ht.
        by replace (i `min` (i + 1)) with i in Ht by lia. }
      destruct Hcases as [(-> & -> & Hno) | (k & value & Hk & Hno & H1 & H2 & -> & -> & Hl)].
      * left. do 2 (split; [done |]). rewrite Hdrop.
        apply not_elem_of_cons. split; [congruence | exact Hno].
      * right. exists k, value. split; [lia |]. split; [| done].
        rewrite Hdrop. replace (k - i) with (S (k - (i + 1))) by lia.
        simpl. apply not_elem_of_cons. split; [congruence | exact Hno].
  - split; [intros e; discriminate |].
    intros port' argv' [= <- <-]. split; [reflexivity |]. left.
    do 2 (split; [done |]). rewrite drop_ge by lia. apply not_elem_of_nil.
Qed.

Lemma string_app_assoc (s1 s2 s3 : string) :
  ((s1 ++ s2) ++ s3 = s1 ++ s2 ++ s3)%string.
Proof.
  induction s1 as [| c s1 IH]; [reflexivity |].
  change (String c ((s1 ++ s2) ++ s3) = String c (s1 ++ s2 ++ s3))%string.
  by f_equal.
Qed.

(** A token with a single quote in it is not the subcommand's name. *)
Lemma quoted_pair_not_browser (a b : string) :
  (a ++ "', '" ++ b)%string <> "browser".
Proof.
  intros H.
  do 7 (destruct a as [| ? a]; [discriminate |];
        change (String ?c ?s ++ ?t)%string with (String c (s ++ t)%string) in H;
        injection H as _ H).
  destruct a; discriminate.
Qed.

(** X8. Quoting does not escape. The forwarded tokens are wrapped in single
    quotes as they are, so the child's command does not tell where a token
    ends: one token that holds the text [', '] gives the same command as the
    two tokens on either side of it. *)
Theorem X8_quoting_does_not_escape (port : torchchat.port_value) (prog a b : string) :
  a <> "browser" -> b <> "browser" ->
  torchchat.flask_command port [prog; (a ++ "', '" ++ b)%string]
  = torchchat.flask_command port [prog; a; b].
Proof.
  intros Ha Hb. unfold torchchat.flask_command, torchchat.args_plus_chat.
  simpl drop.
  rewrite (filter_cons_True _ (a ++ "', '" ++ b)%string) by apply quoted_pair_not_browser.
  rewrite (filter_cons_True _ a) by exact Ha.
  rewrite (filter_cons_True _ b) by exact Hb.
  rewrite !filter_nil. do 3 f_equal.
  simpl. unfold torchchat.quote. rewrite !string_app_assoc. reflexivity.
Qed.

Lemma X8_quoting_does_not_escape_witness :
  torchchat.flask_command (torchchat.PortInt 5000)
    ["torchchat.py"; "--prompt', 'hi"]
  = torchchat.flask_command (torchchat.PortInt 5000)
      ["torchchat.py"; "--prompt"; "hi"].
Proof.
  apply (X8_quoting_does_not_escape (torchchat.PortInt 5000) "torchchat.py"
           "--prompt" "hi"); discriminate.
Defined.

Transparent torchchat.browser_launch.

Lemma browser_launch_child w fuel argv command :
  EvSubprocessRun command ∈ trace (torchchat.browser_launch w fuel argv) ->
  exists port argv',
    torchchat.scan_port fuel 2 (torchchat.PortInt 5000) argv = Ret (port, argv') /\
    command = torchchat.flask_command port argv'.
Proof.
  unfold torchchat.browser_launch.
  destruct (torchchat.scan_port fuel 2 _ argv) as [[port argv'] | e |];
    simpl; [| intros H; in_trace H..].
  destruct (subprocess_run w _); simpl; intros H;
    apply list_elem_of_singleton in H; injection H as ->; eauto.
Qed.

Opaque torchchat.browser_launch.

Lemma run_child_process w fuel argv (args : gmap string pyval) command :
  EvSubprocessRun command ∈ trace (torchchat.run w fuel argv args) ->
  EvSubprocessRun command ∈ trace (torchchat.browser_launch w fuel argv).
Proof.
  intros Hev.
  apply run_launch_event in Hev as (args' & _ & Hev); [| reflexivity].
  destruct (args' !! "command") as [c |] eqn:Hc;
    [| apply dispatch_no_command in Hev; [discriminate | congruence]].
  destruct c; try (apply dispatch_no_command in Hev; [discriminate | congruence]).
  pose proof (dispatch_child_process w fuel argv args' s command Hc Hev) as ->.
  rewrite (dispatch_command w fuel argv args' "browser" Hc) in Hev.
  simpl bool_decide in Hev. cbv iota in Hev. rewrite trace_bind in Hev.
  apply elem_of_app in Hev as [Hev | Hev].
  - apply check_args_events in Hev. discriminate.
  - destruct (outcome (cli.check_args _ _ _)); [exact Hev | in_trace Hev..].
Qed.

(** X9. The child's command comes from the command line alone. Whatever the
    parsed namespace holds (the forced [chat] and [gui] flags, a resolved
    quantization, a seed) and whatever the collaborators answer, the command
    of the child process of a run is the one built from [sys.argv]: two runs
    on the same command line that start a child start it with the same
    command. *)
Theorem X9_child_command_from_argv_only (w1 w2 : World) (fuel : nat)
    (argv : list string) (args1 args2 : gmap string pyval)
    (command1 command2 : list string) :
  EvSubprocessRun command1 ∈ trace (torchchat.run w1 fuel argv args1) ->
  EvSubprocessRun command2 ∈ trace (torchchat.run w2 fuel argv args2) ->
  command1 = command2 /\
  exists port argv',
    torchchat.scan_port fuel 2 (torchchat.PortInt 5000) argv = Ret (port, argv') /\
    command1 = torchchat.flask_command port argv'.
Proof.
  intros H1 H2.
  apply run_child_process, browser_launch_child in H1 as (p1 & a1 & Hs1 & ->).
  apply run_child_process, browser_launch_child in H2 as (p2 & a2 & Hs2 & ->).
  rewrite Hs1 in Hs2. injection Hs2 as <- <-. eauto.
Qed.

Lemma X9_child_command_from_argv_only_witness :
  torchchat.flask_command (torchchat.PortStr "8080") (sample.argv ["browser"; "llama3"])
  = torchchat.flask_command (torchchat.PortStr "8080") (sample.argv ["browser"; "llama3"]) /\
  exists port argv',
    torchchat.scan_port 8 2 (torchchat.PortInt 5000)
      (sample.argv ["browser"; "llama3"; "--port"; "8080"]) = Ret (port, argv') /\
    torchchat.flask_command (torchchat.PortStr "8080") (sample.argv ["browser"; "llama3"])
    = torchchat.flask_command port argv'.
Proof.
  apply (X9_child_command_from_argv_only sample.world sample.offline_world 8
           (sample.argv ["browser"; "llama3"; "--port"; "8080"])
           (sample.named "browser" "llama3")
           (<["model" := PNone]> (sample.seeded "browser" "llama3" 7))).
  - vm_compute. do 4 apply list_elem_of_further. apply list_elem_of_here.
  - vm_compute. do 3 apply list_elem_of_further. apply list_elem_of_here.
Defined.

(** ** The parser and the router *)

Lemma dispatch_print_help w fuel argv (args : gmap string pyval) cmd :
  args !! "command" = Some (PStr cmd) -> cmd ∈ torchchat.subcommands ->
  occurrences is_print_help (trace (torchchat.dispatch w fuel argv args)) = 0.
Proof.
  intros Hc Hcmd. apply occurrences_none. intros ev Hev.
  destruct (is_print_help ev) eqn:Hk; [exfalso | reflexivity].
  destruct ev; try discriminate.
  rewrite (dispatch_command w fuel argv args cmd Hc) in Hev.
  unfold torchchat.subcommands in Hcmd.
  in_trace Hcmd; simpl bool_decide in Hev; cbv iota in Hev;
    rewrite ?trace_bind, ?call_handler_trace in Hev;
    repeat (apply elem_of_app in Hev as [Hev | Hev]);
    try (apply check_args_events in Hev; discriminate);
    try (destruct (outcome (cli.check_args _ _ _)); [| in_trace Hev..]);
    try (apply browser_launch_events in Hev; discriminate);
    try (apply list_elem_of_singleton in Hev; discriminate).
  all: in_trace Hev.
Qed.

(** X10. The help branch of the router is dead. On a command line whose
    first token is no option string, the router's last branch
    (torchchat.py:166-167) is never taken: the parser lets only the eight
    registered subcommands through, and each has a branch of its own. *)
Theorem X10_help_branch_unreachable (w : World) (fuel : nat) (prog tok : string)
    (rest : list string) :
  String.prefix "-" tok = false ->
  occurrences is_print_help (trace (torchchat.main w fuel (prog :: tok :: rest))) = 0.
Proof.
  intros Hopt. unfold torchchat.main. rewrite trace_bind.
  destruct (torchchat.parse_args w (prog :: tok :: rest)) as [t r] eqn:Hparse.
  assert (Ht : occurrences is_print_help t = 0).
  { revert Hparse. unfold torchchat.parse_args. simpl drop. cbv beta iota.
    rewrite Hopt. case_bool_decide.
    - destruct (parse_subcommand w tok rest); simpl; intros [= <- _]; reflexivity.
    - intros [= <- _]. reflexivity. }
  simpl. rewrite occurrences_app, Ht.
  destruct r as [args | e |]; try reflexivity.
  destruct (parse_args_command w prog tok rest t args Hopt Hparse) as [Hin Hc].
  apply run_occurrences; auto. intros args' Hinit.
  apply (dispatch_print_help w fuel _ args' tok); [| exact Hin].
  by rewrite (arg_init_frame w args args' "command" Hinit).
Qed.

Lemma X10_help_branch_unreachable_witness :
  occurrences is_print_help
    (trace (torchchat.main sample.world 8 (sample.argv ["generate"]))) = 0.
Proof.
  apply (X10_help_branch_unreachable sample.world 8 "torchchat.py" "generate" []).
  reflexivity.
Defined.

(** ** The argument schema *)

Lemma add_argument_none (p : arguments.parser) (a : arguments.argument) :
  arguments.add_argument p a = None <->
  exists s, s ∈ arguments.known_option_strings p /\ s ∈ arguments.option_strings a.
Proof.
  unfold arguments.add_argument.
  destruct (existsb _ _) eqn:He.
  - split; [intros _ | reflexivity].
    apply existsb_exists in He as (s & Hin & Hs).
    exists s. split; [by apply bool_decide_eq_true in Hs | by apply list_elem_of_In].
  - split; [discriminate |]. intros (s & Hk & Hin).
    assert (existsb (fun s => bool_decide (s ∈ arguments.known_option_strings p))
              (arguments.option_strings a) = true); [| congruence].
    apply existsb_exists. exists s.
    split; [by apply list_elem_of_In | by apply bool_decide_eq_true].
Qed.

(** Registration of calls whose option strings are pairwise distinct: it
    raises exactly when the parser knows one of them already, and otherwise
    appends the option strings and the arguments in order. *)
Lemma add_arguments_distinct (calls : list arguments.argument) (p : arguments.parser) :
  NoDup (concat (map arguments.option_strings calls)) ->
  match arguments.add_arguments p calls with
  | None =>
    exists s, s ∈ arguments.known_option_strings p /\
              s ∈ concat (map arguments.option_strings calls)
  | Some p' =>
    (forall s, s ∈ arguments.known_option_strings p ->
               s ∉ concat (map arguments.option_strings calls)) /\
    arguments.known_option_strings p'
    = arguments.known_option_strings p ++ concat (map arguments.option_strings calls) /\
    arguments.arguments p' = arguments.arguments p ++ calls
  end.
Proof.
  revert p. induction calls as [| a calls IH]; intros p Hnd; simpl.
  - rewrite !app_nil_r. split; [intros s _; apply not_elem_of_nil | done].
  - apply NoDup_app in Hnd as (Ha & Hdisj & Hrest).
    destruct (arguments.add_argument p a) as [p1 |] eqn:Hadd.
    + assert (Hp1 : arguments.known_option_strings p1
                    = arguments.known_option_strings p ++ arguments.option_strings a
                    /\ arguments.arguments p1 = arguments.arguments p ++ [a]).
      { unfold arguments.add_argument in Hadd.
        destruct (existsb _ _); [discriminate |]. by injection Hadd as <-. }
      destruct Hp1 as [Hk1 Ha1].
      assert (Hfree : forall s, s ∈ arguments.known_option_strings p ->
                                s ∉ arguments.option_strings a).
      { intros s Hs Hin.
        assert (arguments.add_argument p a = None); [| congruence].
        apply add_argument_none. eauto. }
      specialize (IH p1 Hrest).
      destruct (arguments.add_arguments p1 calls) as [p' |].
      * destruct IH as (Hfree' & Hk & Hargs). split; [| split].
        -- intros s Hs Hin. apply elem_of_app in Hin as [Hin | Hin].
           ++ by apply (Hfree s).
           ++ apply (Hfree' s); [| exact Hin]. rewrite Hk1. apply elem_of_app. by left.
        -- rewrite Hk, Hk1, <- app_assoc. reflexivity.
        -- rewrite Hargs, Ha1, <- app_assoc. reflexivity.
      * destruct IH as (s & Hs & Hin). rewrite Hk1 in Hs.
        apply elem_of_app in Hs as [Hs | Hs].
        -- exists s. split; [exact Hs | apply elem_of_app; by right].
        -- destruct (Hdisj s Hs Hin).
    + apply add_argument_none in Hadd as (s & Hs & Hin).
      exists s. split; [exact Hs | apply elem_of_app; by left].
Qed.

Lemma schema_option_strings_distinct (dtypes tables : list string) :
  NoDup (concat (map arguments.option_strings
                   (arguments._add_arguments_common dtypes tables))).
Proof. apply (bool_decide_unpack _). vm_compute. exact I. Qed.

Lemma schema_dests (dtypes tables : list string) :
  map arguments.dest (arguments._add_arguments_common dtypes tables)
  = ["model"; "chat"; "gui"; "prompt"; "is_chat_model"; "seed"; "num_samples";
     "max_new_tokens"; "top_k"; "temperature"; "compile"; "compile_prefill";
     "parallel_prefill"; "profile"; "speculate_k"; "draft_checkpoint_path";
     "checkpoint_path"; "params_path"; "gguf_path"; "tokenizer_path";
     "output_pte_path"; "output_dso_path"; "dso_path"; "pte_path"; "dtype";
     "verbose"; "quantize"; "draft_quantize"; "params_table"; "device"; "tasks";
     "limit"; "max_seq_length"; "hf_token"; "model_directory"; "port"].
Proof. reflexivity. Qed.

(** The namespace of a command line without options is the one of the
    defaults. *)
Lemma schema_defaults (dtypes tables : list string) :
  arguments.defaults (arguments._add_arguments_common dtypes tables)
  = Some cli.default_namespace.
Proof. vm_compute. reflexivity. Qed.

(** X11. Registering the common arguments. On any parser, the calls of
    [_add_arguments_common] raise a conflict exactly when the parser already
    knows one of their option strings. On the fresh parser of a subcommand,
    which knows [-h] and [--help], they all go through and leave the 36
    arguments in order; a second round on the same parser raises. No two
    arguments are stored under the same attribute. This holds whatever the
    catalogs of dtype names and parameter tables are. *)
Theorem X11_schema_registration (dtypes tables : list string) (p : arguments.parser) :
  (arguments.add_arguments p (arguments._add_arguments_common dtypes tables) = None <->
   exists s, s ∈ arguments.known_option_strings p /\
             s ∈ concat (map arguments.option_strings
                           (arguments._add_arguments_common dtypes tables))) /\
  (exists p',
     arguments.add_arguments arguments.new_parser
       (arguments.add_arguments_for_chat dtypes tables) = Some p' /\
     arguments.arguments p' = arguments._add_arguments_common dtypes tables /\
     arguments.add_arguments p' (arguments._add_arguments_common dtypes tables) = None) /\
  NoDup (map arguments.dest (arguments._add_arguments_common dtypes tables)).
Proof.
  split; [| split].
  - pose proof (add_arguments_distinct _ p
                  (schema_option_strings_distinct dtypes tables)) as H.
    destruct (arguments.add_arguments p _) as [p' |].
    + destruct H as (Hfree & _). split; [discriminate |].
      intros (s & Hs & Hin). destruct (Hfree s Hs Hin).
    + split; [intros _; exact H | reflexivity].
  - unfold arguments.add_arguments_for_chat.
    pose proof (add_arguments_distinct _ arguments.new_parser
                  (schema_option_strings_distinct dtypes tables)) as H.
    destruct (arguments.add_arguments arguments.new_parser _) as [p' |].
    + destruct H as (_ & Hk & Ha). exists p'. split; [reflexivity |].
      split; [exact Ha |].
      pose proof (add_arguments_distinct _ p'
                    (schema_option_strings_distinct dtypes tables)) as H'.
      destruct (arguments.add_arguments p' _) as [p'' |]; [| reflexivity].
      destruct H' as (Hfree & _). exfalso.
      apply (Hfree "--chat").
      * rewrite Hk. apply elem_of_app. right.
        apply list_elem_of_here.
      * apply list_elem_of_here.
    + destruct H as (s & Hs & Hin). exfalso. revert Hin.
      simpl in Hs. in_trace Hs; vm_compute;
        intros Hin; repeat (apply elem_of_cons in Hin as [Hin | Hin]; [discriminate |]);
        by apply elem_of_nil in Hin.
  - rewrite schema_dests. apply (bool_decide_unpack _). vm_compute. exact I.
Qed.

Lemma schema_attribute dtypes tables (args : gmap string pyval) (k : string) :
  Forall (fun a => is_Some (args !! arguments.dest a))
    (arguments._add_arguments_common dtypes tables) ->
  k ∈ map arguments.dest (arguments._add_arguments_common dtypes tables) ->
  is_Some (args !! k).
Proof.
  intros Hall Hk. apply list_elem_of_fmap in Hk as (a & -> & Ha).
  by apply (proj1 (Forall_forall _ _) Hall).
Qed.

Transparent cli.check_args torchchat.browser_launch.

Lemma check_args_outcome_cases w (args : gmap string pyval) name :
  is_Some (args !! "model") -> is_Some (args !! "model_directory") ->
  is_Some (args !! "hf_token") ->
  outcome (cli.check_args w args name) = Ret tt \/
  outcome (cli.check_args w args name) = Raise CollaboratorError.
Proof.
  intros [m Hm] [d Hd] [t Ht]. unfold cli.check_args, getattr.
  rewrite Hm, Hd, Ht. simpl.
  destruct (bool_decide _); [by left |].
  destruct (truthy m); simpl; [| by left].
  destruct (is_model_downloaded w m d); simpl; [by left |].
  destruct (download_and_convert w m d t); [by left | by right].
Qed.

Lemma browser_launch_outcome w fuel argv :
  is_attribute_error (outcome (torchchat.browser_launch w fuel argv)) = false.
Proof.
  unfold torchchat.browser_launch.
  destruct (torchchat.scan_port fuel 2 _ argv) as [[port argv'] | e |] eqn:Hs.
  - simpl. by destruct (subprocess_run w _).
  - by destruct (scan_port_no_exception fuel 2 (torchchat.PortInt 5000) argv e).
  - reflexivity.
Qed.

Opaque cli.check_args torchchat.browser_launch.

Lemma call_handler_no_attribute_error w h (args : gmap string pyval) :
  is_attribute_error (outcome (torchchat.call_handler w h args)) = false.
Proof.
  destruct (outcome (torchchat.call_handler w h args)) as [| e |] eqn:H;
    try reflexivity.
  by rewrite (call_handler_outcome w h args e H).
Qed.

Lemma dispatch_no_attribute_error w fuel argv (args : gmap string pyval) :
  is_Some (args !! "command") -> is_Some (args !! "model") ->
  is_Some (args !! "model_directory") -> is_Some (args !! "hf_token") ->
  is_attribute_error (outcome (torchchat.dispatch w fuel argv args)) = false.
Proof.
  intros [c Hc] Hm Hd Ht.
  assert (Hchk : forall cmd k, k <> "chat" -> k <> "gui" -> is_Some (args !! k) ->
                 is_Some (torchchat.forced_flags cmd args !! k))
    by (intros cmd k H1 H2; by rewrite forced_flags_frame).
  assert (Hseq : forall a name (k : M unit),
             is_Some (a !! "model") -> is_Some (a !! "model_directory") ->
             is_Some (a !! "hf_token") ->
             is_attribute_error (outcome k) = false ->
             is_attribute_error (outcome (cli.check_args w a name ;; k)) = false).
  { intros a name k H1 H2 H3 Hk. rewrite outcome_bind.
    by destruct (check_args_outcome_cases w a name H1 H2 H3) as [-> | ->]. }
  destruct c;
    try (unfold torchchat.dispatch, getattr; rewrite Hc, bind_ret_l; reflexivity).
  rewrite (dispatch_command w fuel argv args s Hc).
  repeat case_bool_decide;
    try (apply Hseq; auto);
    try apply call_handler_no_attribute_error;
    try apply browser_launch_outcome;
    reflexivity.
Qed.

(** The post-processor reads [quantize] and [seed] only where the namespace
    has them. *)
Lemma arg_init_no_attribute_error w (args : gmap string pyval) :
  is_attribute_error (outcome (cli.arg_init w args)) = false.
Proof.
  rewrite arg_init_outcome.
  destruct (outcome (cli.resolve_quantize w args)) as [a | e |] eqn:H;
    [by destruct (seed_accepted w args) | | reflexivity].
  unfold cli.resolve_quantize in H.
  destruct (args !! "quantize") as [q |]; [| discriminate].
  destruct q; simpl in H; try (by injection H as <-);
    (destruct (is_file w _) as [[|] |]; simpl in H;
     try discriminate; try (by injection H as <-);
     destruct (read_text w _) as [text |]; simpl in H;
     try (by injection H as <-);
     destruct (json_loads w text); simpl in H; try discriminate;
     by injection H as <-).
Qed.

(** X12. The schema covers every attribute the program reads. A run from a
    namespace that holds an attribute for each argument of
    [_add_arguments_common], and the command, never raises [AttributeError]:
    [check_args], [arg_init] and the router read no attribute that the parser
    does not set. *)
Theorem X12_schema_covers_attribute_reads (w : World) (fuel : nat)
    (argv : list string) (args : gmap string pyval) (dtypes tables : list string) :
  Forall (fun a => is_Some (args !! arguments.dest a))
    (arguments._add_arguments_common dtypes tables) ->
  is_Some (args !! "command") ->
  is_attribute_error (outcome (torchchat.run w fuel argv args)) = false.
Proof.
  intros Hall Hc.
  assert (Hattr : forall k,
             k ∈ ["model"; "model_directory"; "hf_token"; "verbose"] ->
             is_Some (args !! k)).
  { intros k Hk. apply (schema_attribute dtypes tables); [exact Hall |].
    rewrite schema_dests. in_trace Hk;
      repeat first [apply list_elem_of_here | apply list_elem_of_further]. }
  rewrite run_outcome.
  destruct (outcome (cli.arg_init w args)) as [args' | e |] eqn:Hinit;
    [| | reflexivity].
  - assert (Hf : forall k, k <> "quantize" -> args' !! k = args !! k)
      by (intros k; by apply (arg_init_frame w)).
    destruct (Hattr "verbose") as [v Hv];
      [repeat first [apply list_elem_of_here | apply list_elem_of_further] |].
    rewrite Hf, Hv by done.
    apply dispatch_no_attribute_error; rewrite Hf by done; auto; apply Hattr;
      repeat first [apply list_elem_of_here | apply list_elem_of_further].
  - pose proof (arg_init_no_attribute_error w args) as H.
    by rewrite Hinit in H.
Qed.

Lemma X12_schema_covers_attribute_reads_witness :
  is_attribute_error
    (outcome (torchchat.run sample.world 8 (sample.argv ["chat"; "llama3"])
                (sample.named "chat" "llama3"))) = false.
Proof.
  apply (X12_schema_covers_attribute_reads sample.world 8
           (sample.argv ["chat"; "llama3"]) (sample.named "chat" "llama3") [] []).
  - repeat (constructor; [eexists; reflexivity |]). constructor.
  - eexists. reflexivity.
Defined.

(** ** The order of effects *)

Transparent cli.check_args.

Lemma check_args_staged w (args : gmap string pyval) name :
  staged (trace (cli.check_args w args name)) /\
  forall ev, ev ∈ trace (cli.check_args w args name) -> 3 <= phase ev <= 5.
Proof.
  unfold staged, cli.check_args. run_code;
    (split; [repeat constructor; simpl; lia |]);
    intros ev Hev; in_trace Hev; simpl; lia.
Qed.

(** Within the checker the acquisition follows an artifact test of the same
    model and directory that answered no, and the test follows the entry. *)
Lemma check_args_order w (args : gmap string pyval) name :
  (forall m d t,
      EvDownloadAndConvert m d t ∈ trace (cli.check_args w args name) ->
      EvIsModelDownloaded m d ∈ trace (cli.check_args w args name) /\
      is_model_downloaded w m d = false) /\
  (forall m d,
      EvIsModelDownloaded m d ∈ trace (cli.check_args w args name) ->
      EvCheckArgs args name ∈ trace (cli.check_args w args name)).
Proof.
  unfold cli.check_args. run_code; (split; [intros m d t | intros m d]);
    simpl; rewrite ?elem_of_cons, ?elem_of_nil;
    intuition (try discriminate; simplify_eq; auto).
Qed.

Opaque cli.check_args.

Lemma launch_part_staged (tr : list event) :
  length tr <= 1 -> (forall ev, ev ∈ tr -> phase ev = 6) ->
  staged tr /\ forall ev, ev ∈ tr -> 6 <= phase ev.
Proof.
  intros Hlen Hk. split; [| intros ev Hev; rewrite (Hk ev Hev); lia].
  destruct tr as [| e [| e' tr]]; [constructor | | simpl in Hlen; lia].
  repeat constructor.
Qed.

Lemma dispatch_staged w fuel argv (args : gmap string pyval) :
  staged (trace (torchchat.dispatch w fuel argv args)) /\
  forall ev, ev ∈ trace (torchchat.dispatch w fuel argv args) -> 3 <= phase ev.
Proof.
  assert (Hseq : forall a name (k : M unit),
             length (trace k) <= 1 -> (forall ev, ev ∈ trace k -> phase ev = 6) ->
             staged (trace (cli.check_args w a name ;; k)) /\
             forall ev, ev ∈ trace (cli.check_args w a name ;; k) -> 3 <= phase ev).
  { intros a name k Hlen Hk. rewrite trace_bind.
    destruct (check_args_staged w a name) as [Hs Hb].
    set (tail := match outcome (cli.check_args w a name) with
                 | Ret _ => trace k | _ => [] end).
    destruct (launch_part_staged tail) as [Hts Htb].
    { unfold tail. destruct (outcome _); simpl; lia. }
    { unfold tail. intros ev Hev. destruct (outcome _); [by apply Hk | in_trace Hev..]. }
    split.
    - apply StronglySorted_app_2; [| exact Hs | exact Hts].
      intros x1 x2 H1 H2. specialize (Hb x1 H1). specialize (Htb x2 H2). lia.
    - intros ev Hev. apply elem_of_app in Hev as [Hev | Hev].
      + specialize (Hb ev Hev). lia.
      + specialize (Htb ev Hev). lia. }
  assert (Hh : forall h a, length (trace (torchchat.call_handler w h a)) <= 1 /\
                           forall ev, ev ∈ trace (torchchat.call_handler w h a) ->
                                      phase ev = 6).
  { intros h a. rewrite call_handler_trace. split; [simpl; lia |].
    intros ev Hev. by in_trace Hev. }
  assert (Hb : length (trace (torchchat.browser_launch w fuel argv)) <= 1 /\
               forall ev, ev ∈ trace (torchchat.browser_launch w fuel argv) ->
                          phase ev = 6).
  { destruct (browser_launch_trace_cases w fuel argv) as [-> | [c ->]];
      (split; [simpl; lia |]); intros ev Hev; by in_trace Hev. }
  destruct (args !! "command") as [[] |] eqn:Hc;
    try (unfold torchchat.dispatch, getattr; rewrite Hc, ?bind_ret_l;
         unfold staged; simpl;
         split; [repeat constructor | intros ev Hev; in_trace Hev; simpl; lia]).
  rewrite (dispatch_command w fuel argv args s Hc).
  repeat case_bool_decide;
    try (apply Hseq; try apply Hh; try apply Hb).
  - destruct (Hh eval_main args) as [Hl Hk].
    apply launch_part_staged in Hk as [Hst Hph]; [| exact Hl].
    split; [exact Hst |]. intros ev Hev. specialize (Hph ev Hev). lia.
  - unfold staged. simpl.
    split; [repeat constructor | intros ev Hev; in_trace Hev; simpl; lia].
Qed.

Lemma arg_init_staged w (args : gmap string pyval) :
  staged (trace (cli.arg_init w args)) /\
  forall ev, ev ∈ trace (cli.arg_init w args) -> phase ev = 1.
Proof.
  destruct (arg_init_trace_cases w args) as [-> | ->];
    [| split; [constructor | intros ev Hev; in_trace Hev]].
  rewrite apply_seed_trace.
  destruct (args !! "seed") as [seed |]; [destruct (truthy seed) |];
    (split; [repeat constructor | intros ev Hev; by in_trace Hev]).
Qed.

Lemma run_staged w fuel argv (args : gmap string pyval) :
  staged (trace (torchchat.run w fuel argv args)) /\
  forall ev, ev ∈ trace (torchchat.run w fuel argv args) -> 1 <= phase ev.
Proof.
  rewrite run_trace.
  destruct (arg_init_staged w args) as [Hs Hb].
  set (rest := match outcome (cli.arg_init w args) with
               | Ret args' =>
                 match args' !! "verbose" with
                 | Some v => EvBasicConfig (truthy v)
                             :: trace (torchchat.dispatch w fuel argv args')
                 | None => []
                 end
               | _ => []
               end).
  assert (Hrest : staged rest /\ forall ev, ev ∈ rest -> 2 <= phase ev).
  { unfold rest.
    destruct (outcome (cli.arg_init w args)) as [args' | e |];
      try (split; [constructor | intros ev Hev; in_trace Hev]).
    destruct (args' !! "verbose") as [v |];
      [| split; [constructor | intros ev Hev; in_trace Hev]].
    destruct (dispatch_staged w fuel argv args') as [Hd Hdb]. split.
    - constructor; [exact Hd |]. apply Forall_forall. intros ev Hev.
      specialize (Hdb ev Hev). simpl. lia.
    - intros ev Hev. apply elem_of_cons in Hev as [-> | Hev]; [simpl; lia |].
      specialize (Hdb ev Hev). lia. }
  destruct Hrest as [Hr Hrb]. split.
  - apply StronglySorted_app_2; [| exact Hs | exact Hr].
    intros x1 x2 H1 H2. rewrite (Hb x1 H1). specialize (Hrb x2 H2). lia.
  - intros ev Hev. apply elem_of_app in Hev as [Hev | Hev].
    + rewrite (Hb ev Hev). lia.
    + specialize (Hrb ev Hev). lia.
Qed.

Lemma phase_le (ev : event) : phase ev <= 6.
Proof. destruct ev; simpl; lia. Qed.

(** In a staged trace an event of an earlier stage lies before. *)
Lemma staged_before (before after : list event) (ev e : event) :
  staged (before ++ ev :: after) -> e ∈ before ++ ev :: after ->
  phase e < phase ev -> e ∈ before.
Proof.
  intros Hs He Hlt. apply elem_of_app in He as [He | He]; [exact He |].
  apply StronglySorted_app_1_r in Hs. inversion Hs as [| ? ? _ Hall]; subst.
  apply elem_of_cons in He as [-> | He]; [lia |].
  rewrite Forall_forall in Hall. specialize (Hall e He). lia.
Qed.

(** In a staged trace nothing follows an event of the last stage. *)
Lemma staged_last (before after : list event) (ev : event) :
  staged (before ++ ev :: after) -> phase ev = 6 -> after = [].
Proof.
  intros Hs Hev. apply StronglySorted_app_1_r in Hs.
  inversion Hs as [| ? ? _ Hall]; subst.
  destruct after as [| e after]; [reflexivity |].
  apply Forall_cons in Hall as [Hlt _]. pose proof (phase_le e). lia.
Qed.

(** The checker's call that an event of the checker in the router's trace
    comes from: the router's trace starts with the trace of that call. *)
Lemma dispatch_checked w fuel argv (args : gmap string pyval) ev :
  ev ∈ trace (torchchat.dispatch w fuel argv args) ->
  is_check_args ev || is_artifact_test ev || is_acquisition ev = true ->
  exists a name rest,
    trace (torchchat.dispatch w fuel argv args)
    = trace (cli.check_args w a name) ++ rest /\
    ev ∈ trace (cli.check_args w a name).
Proof.
  intros Hev Hk.
  destruct (args !! "command") as [c |] eqn:Hc.
  2: { apply dispatch_no_command in Hev; [by subst | congruence]. }
  assert (Hstr : (exists cmd, c = PStr cmd) \/ forall cmd, c <> PStr cmd)
    by (destruct c; eauto).
  destruct Hstr as [[cmd ->] | Hn].
  2: { apply dispatch_no_command in Hev; [by subst |].
       intros cmd. rewrite Hc. intros [= ->]. by apply (Hn cmd). }
  pose proof (dispatch_check w fuel argv args cmd ev Hc Hev Hk) as Hin.
  revert Hev. rewrite (dispatch_command w fuel argv args cmd Hc).
  assert (Hn : cmd ∉ ["chat"; "generate"; "export"] -> cmd <> "browser" ->
               torchchat.forced_flags cmd args = args).
  { intros H1 H2. unfold torchchat.forced_flags.
    rewrite (proj2 (String.eqb_neq cmd "chat")), (proj2 (String.eqb_neq _ _) H2);
      [reflexivity |].
    intros ->. apply H1, list_elem_of_here. }
  repeat case_bool_decide; rewrite ?trace_bind, ?call_handler_trace; intros Hev.
  - eexists _, _, _. split; [reflexivity | exact Hin].
  - eexists _, _, _. split; [reflexivity | exact Hin].
  - rewrite Hn in Hin by done. eexists _, _, _. split; [reflexivity | exact Hin].
  - in_trace Hev. discriminate.
  - in_trace Hev. discriminate.
Qed.

(** What an event of a run that is neither the seeding nor the logging
    set-up tells: the logging was set up, and the event is the router's, whose
    whole trace is part of the run's. *)
Lemma run_dispatch_part w fuel argv (args : gmap string pyval) ev :
  ev ∈ trace (torchchat.run w fuel argv args) ->
  3 <= phase ev ->
  exists args' debug,
    EvBasicConfig debug ∈ trace (torchchat.run w fuel argv args) /\
    ev ∈ trace (torchchat.dispatch w fuel argv args') /\
    forall e, e ∈ trace (torchchat.dispatch w fuel argv args') ->
              e ∈ trace (torchchat.run w fuel argv args).
Proof.
  rewrite run_trace. intros Hev Hph.
  apply elem_of_app in Hev as [Hev | Hev].
  { apply arg_init_staged in Hev. lia. }
  destruct (outcome (cli.arg_init w args)) as [args' | e |]; [| in_trace Hev..].
  destruct (args' !! "verbose") as [v |]; [| in_trace Hev].
  apply elem_of_cons in Hev as [-> | Hev]; [simpl in Hph; lia |].
  exists args', (truthy v). split; [| split; [exact Hev |]].
  - apply elem_of_app. right. apply list_elem_of_here.
  - intros e0 He. apply elem_of_app. right. by apply list_elem_of_further.
Qed.

Lemma main_trace_cases w fuel argv :
  trace (torchchat.main w fuel argv) = [] \/
  trace (torchchat.main w fuel argv) = [EvParserError] \/
  exists parsed,
    outcome (torchchat.parse_args w argv) = Ret parsed /\
    trace (torchchat.main w fuel argv) = trace (torchchat.run w fuel argv parsed).
Proof.
  unfold torchchat.main. rewrite trace_bind.
  assert (Hp : trace (torchchat.parse_args w argv) = [] \/
               torchchat.parse_args w argv = ([EvParserError], Raise (SystemExit 2))).
  { unfold torchchat.parse_args.
    destruct (drop 1 argv) as [| tok rest]; [by right |].
    destruct (String.prefix "-" tok).
    - left. by destruct (parse_leading_option w _).
    - case_bool_decide; [left | by right].
      by destruct (parse_subcommand w tok rest). }
  destruct Hp as [-> | ->]; [| by right; left].
  simpl. destruct (outcome (torchchat.parse_args w argv)) as [parsed | e |];
    [right; right; by exists parsed | by left..].
Qed.

(** X13. The order of effects. In every run of the script the effects come
    in this order, each at most once: parser error; seeding; logging set-up;
    entry into the precondition checker; artifact test; acquisition; and last
    one handler call, child process or help text. Moreover, whenever the
    checker is entered, an artifact test or an acquisition is made, a handler
    is called, the child process is started or the help is printed, the
    logging has been set up before; an acquisition comes after an artifact
    test of the same model and directory, which answered that the artifacts
    are absent; an artifact test comes after the entry into the checker; and
    nothing follows the handler call, the child process or the help text. The
    script from [sys.argv] does nothing, or only reports a parser error, or
    is such a run from the parsed namespace. *)
Theorem X13_effects_in_order (w : World) (fuel : nat) (argv : list string)
    (args : gmap string pyval) :
  staged (trace (torchchat.run w fuel argv args)) /\
  staged (trace (torchchat.main w fuel argv)) /\
  (forall before ev after,
      trace (torchchat.run w fuel argv args) = before ++ ev :: after ->
      (is_check_args ev || is_artifact_test ev || is_acquisition ev
       || is_launch ev || is_print_help ev = true ->
       exists debug, EvBasicConfig debug ∈ before) /\
      (forall m d t,
          ev = EvDownloadAndConvert m d t ->
          EvIsModelDownloaded m d ∈ before /\ is_model_downloaded w m d = false) /\
      (forall m d,
          ev = EvIsModelDownloaded m d ->
          exists a name, EvCheckArgs a name ∈ before) /\
      (is_launch ev || is_print_help ev = true -> after = [])) /\
  (trace (torchchat.main w fuel argv) = [] \/
   trace (torchchat.main w fuel argv) = [EvParserError] \/
   exists parsed,
     outcome (torchchat.parse_args w argv) = Ret parsed /\
     trace (torchchat.main w fuel argv) = trace (torchchat.run w fuel argv parsed)).
Proof.
  pose proof (proj1 (run_staged w fuel argv args)) as Hrun.
  split; [exact Hrun |]. split; [| split; [| apply main_trace_cases]].
  { destruct (main_trace_cases w fuel argv) as [-> | [-> | (parsed & _ & ->)]];
      [constructor | repeat constructor | apply run_staged]. }
  intros before ev after Htr.
  assert (Hin : ev ∈ trace (torchchat.run w fuel argv args)).
  { rewrite Htr. apply elem_of_app. right. apply list_elem_of_here. }
  rewrite Htr in Hrun.
  assert (Hchecked : forall e,
             e ∈ trace (torchchat.run w fuel argv args) ->
             is_check_args e || is_artifact_test e || is_acquisition e = true ->
             exists a name,
               e ∈ trace (cli.check_args w a name) /\
               forall e', e' ∈ trace (cli.check_args w a name) ->
                          e' ∈ before ++ ev :: after).
  { intros e He Hk.
    destruct (run_dispatch_part w fuel argv args e He) as (args' & _ & _ & Hd & Hsub);
      [destruct e; try discriminate; simpl; lia |].
    destruct (dispatch_checked w fuel argv args' e Hd Hk) as (a & name & rest & Heq & Hc).
    exists a, name. split; [exact Hc |].
    intros e' He'. rewrite <- Htr. apply Hsub. rewrite Heq.
    apply elem_of_app. by left. }
  split; [| split; [| split]].
  - intros Hk.
    destruct (run_dispatch_part w fuel argv args ev Hin) as (_ & debug & Hlog & _);
      [destruct ev; try discriminate; simpl; lia |].
    exists debug. rewrite Htr in Hlog.
    apply (staged_before before after ev _ Hrun Hlog).
    destruct ev; try discriminate; simpl; lia.
  - intros m d t ->.
    destruct (Hchecked _ Hin eq_refl) as (a & name & Hc & Hsub).
    apply (proj1 (check_args_order w a name)) in Hc as [Ht Hf].
    split; [| exact Hf].
    apply (staged_before before after _ _ Hrun (Hsub _ Ht)). simpl. lia.
  - intros m d ->.
    destruct (Hchecked _ Hin eq_refl) as (a & name & Hc & Hsub).
    apply (proj2 (check_args_order w a name)) in Hc.
    exists a, name.
    apply (staged_before before after _ _ Hrun (Hsub _ Hc)). simpl. lia.
  - intros Hk. apply (staged_last before after ev Hrun).
    destruct ev; try discriminate; reflexivity.
Qed.
